(** * Live FFT spectrum viewer ([pklaus/audio/spectrum/plot.py])

    A shallow embedding of the numeric core of the viewer: the decibel
    slider ([DecibelSlider]), the capture buffer of the microphone
    recorder ([MicrophoneRecorder]) and the per-tick driver
    ([LiveFFTWidget.handleNewData]).

    Numbers.  Python and numpy floats are modelled by [PyFloat.t]: a
    real number, or one of the IEEE special values [+inf], [-inf],
    [nan].  Finite arithmetic is exact (no rounding, no signed zero);
    the special values follow IEEE 754, so a division by zero in numpy
    yields an infinity while the same division on Python numbers raises
    [ZeroDivisionError].  Python's own floats are binary64 and do not
    overflow in the ranges the program works in.  The spectrum and its
    maximum are binary32 (the sample type, [sample_style[1]], which
    numpy 2 keeps through [rfft], [abs], [max] and the division of the
    Python integer [1] by the maximum), where the reciprocal of a small
    maximum does overflow: [np_div] rounds to an infinity from the
    overflow threshold of the type on.  Python integers are [Z].

    Objects.  The list held in [MicrophoneRecorder.frames] is a Python
    object that is appended to in place and swapped for a fresh one by
    [get_frames]; it lives in a store of list objects ([heap]).

    Threads.  The capture loop waits in [rec.record] and tests [stop]
    only after it has appended the block that call returned; [close]
    joins the thread with no time limit.  A call that waits has three
    outcomes: it returns, it raises, or it never returns
    ([outcome]).  *)

From Stdlib Require Import Reals Lra Lia ZArith List Bool.
From Stdlib Require Floats Uint63.
From stdpp Require Import base gmap.
Import ListNotations.

Local Open Scope R_scope.

(** ** Exceptions and fallible computations *)

Inductive exn : Set :=
| ValueError
| ZeroDivisionError
| OverflowError
| RuntimeError.

Inductive result (A : Type) : Type :=
| Ok (a : A)
| Raise (e : exn).

Arguments Ok {A} a.
Arguments Raise {A} e.

Definition bind {A B : Type} (m : result A) (k : A -> result B) : result B :=
  match m with
  | Ok a => k a
  | Raise e => Raise e
  end.

Notation "x <- m ;; k" := (bind m (fun x => k))
  (at level 20, m at level 99, k at level 200).

(** A call that waits for another thread may also never return. *)
Inductive outcome (A : Type) : Type :=
| Returns (a : A)
| Raises (e : exn)
| Blocks.

Arguments Returns {A} a.
Arguments Raises {A} e.
Arguments Blocks {A}.

(** ** Floating-point values *)

Module PyFloat.

Inductive t : Type :=
| Fin (r : R)
| PInf
| NInf
| NaN.

Definition of_int (n : Z) : t := Fin (IZR n).

Definition Rsign (r : R) : comparison :=
  if Rlt_dec 0 r then Gt else if Rlt_dec r 0 then Lt else Eq.

Definition opp (a : t) : t :=
  match a with
  | Fin x => Fin (- x)
  | PInf => NInf
  | NInf => PInf
  | NaN => NaN
  end.

Definition add (a b : t) : t :=
  match a, b with
  | NaN, _ | _, NaN => NaN
  | Fin x, Fin y => Fin (x + y)
  | PInf, NInf | NInf, PInf => NaN
  | PInf, _ | _, PInf => PInf
  | NInf, _ | _, NInf => NInf
  end.

Definition sub (a b : t) : t := add a (opp b).

(** An infinity with the sign of [c]; [0 * inf] is [nan]. *)
Definition signed_inf (c : comparison) : t :=
  match c with
  | Gt => PInf
  | Lt => NInf
  | Eq => NaN
  end.

Definition mul (a b : t) : t :=
  match a, b with
  | NaN, _ | _, NaN => NaN
  | Fin x, Fin y => Fin (x * y)
  | Fin x, PInf | PInf, Fin x => signed_inf (Rsign x)
  | Fin x, NInf | NInf, Fin x => signed_inf (CompOpp (Rsign x))
  | PInf, PInf | NInf, NInf => PInf
  | PInf, NInf | NInf, PInf => NInf
  end.

(** IEEE division, exact where the quotient is finite: a zero divisor
    gives an infinity (or [nan] for [0/0]). *)
Definition div (a b : t) : t :=
  match a, b with
  | NaN, _ | _, NaN => NaN
  | Fin x, Fin y =>
      match Rsign y with
      | Eq => signed_inf (Rsign x)
      | _ => Fin (x / y)
      end
  | Fin _, (PInf | NInf) => Fin 0
  | PInf, Fin y => match Rsign y with Lt => NInf | _ => PInf end
  | NInf, Fin y => match Rsign y with Lt => PInf | _ => NInf end
  | (PInf | NInf), (PInf | NInf) => NaN
  end.

(** A finite result in a float type whose magnitudes from [bound] on
    round to an infinity. *)
Definition overflow (bound : R) (a : t) : t :=
  match a with
  | Fin x =>
      if Rle_dec bound x then PInf
      else if Rle_dec x (- bound) then NInf
      else Fin x
  | _ => a
  end.

(** numpy's [true_divide] on float scalars of such a type: a zero
    divisor gives an infinity and a warning, never an exception, and so
    does a quotient too large for the type. *)
Definition np_div (bound : R) (a b : t) : t := overflow bound (div a b).

(** Python's [/] with an integer divisor: zero raises. *)
Definition py_div_int (a : t) (d : Z) : result t :=
  if Z.eqb d 0 then Raise ZeroDivisionError
  else Ok (div a (of_int d)).

(** [a < b]; every comparison with [nan] is false. *)
Definition lt (a b : t) : bool :=
  match a, b with
  | NaN, _ | _, NaN => false
  | Fin x, Fin y => if Rlt_dec x y then true else false
  | _, NInf => false
  | NInf, _ => true
  | PInf, _ => false
  | _, PInf => true
  end.

(** Python's builtin [max(a, b)] and [min(a, b)]: the first argument
    is kept unless the second is strictly better. *)
Definition py_max (a b : t) : t := if lt a b then b else a.
Definition py_min (a b : t) : t := if lt b a then b else a.

(** [math.log10]. *)
Definition log10 (a : t) : result t :=
  match a with
  | Fin x => if Rlt_dec 0 x then Ok (Fin (ln x / ln 10)) else Raise ValueError
  | PInf => Ok PInf
  | NInf => Raise ValueError
  | NaN => Ok NaN
  end.

(** Python's [round(x)] with one argument: nearest integer, ties to
    the even one. *)
Definition floor (x : R) : Z := (up x - 1)%Z.

Definition round_half_even (x : R) : Z :=
  let f := floor x in
  let d := x - IZR f in
  if Rlt_dec d (1 / 2) then f
  else if Rlt_dec (1 / 2) d then (f + 1)%Z
  else if Z.even f then f else (f + 1)%Z.

Definition round (a : t) : result Z :=
  match a with
  | Fin x => Ok (round_half_even x)
  | PInf | NInf => Raise OverflowError
  | NaN => Raise ValueError
  end.

End PyFloat.

Abbreviation pyfloat := PyFloat.t.
Abbreviation Fin := PyFloat.Fin.
Abbreviation PInf := PyFloat.PInf.
Abbreviation NInf := PyFloat.NInf.
Abbreviation NaN := PyFloat.NaN.

(** The least magnitude that rounds to an infinity in binary32,
    [2^128 - 2^103]: half a unit in the last place above the largest
    finite value [2^128 - 2^104]. *)
Definition float32_overflow : R := IZR (2 ^ 128 - 2 ^ 103).

(** [sample_style = (None, np.float32, 1.0, -24, 24)]: the entries the
    code reads. *)
Definition sample_style_2 : R := 1.
Definition sample_style_3 : Z := (-24)%Z.
Definition sample_style_4 : Z := 24%Z.

(** Python's [range(start, stop, step)] for a positive [step]. *)
Definition py_range (start stop step : Z) : list Z :=
  map (fun i => (start + Z.of_nat i * step)%Z)
      (seq 0 (Z.to_nat ((stop - start + step - 1) / step))).

(** ** DecibelSlider *)

Module DecibelSlider.

Definition INT_MIN : Z := 0.
Definition INT_MAX : Z := 1000000.

(** The Qt slider state ([value], [minimum], [maximum]) and the
    attributes added by the subclass. *)
Record t : Type := mk {
  value : Z;
  minimum : Z;
  maximum : Z;
  low_db : Z;
  high_db : Z;
  lowest_as_inf : bool
}.

(** [QSlider.setValue]: Qt forces the value into the legal range. *)
Definition setValue (v : Z) (s : t) : t :=
  mk (Z.max (minimum s) (Z.min (maximum s) v))
     (minimum s) (maximum s) (low_db s) (high_db s) (lowest_as_inf s).

(** [__init__(low_db=-60, high_db=6)]: a fresh [QSlider] has value 0. *)
Definition init (low high : Z) : t :=
  mk 0 INT_MIN INT_MAX low high false.

(** The class invariant: the Qt range set by [__init__], the value
    inside it, and a non-empty decibel range. *)
Definition wf (s : t) : Prop :=
  minimum s = INT_MIN /\ maximum s = INT_MAX
  /\ (INT_MIN <= value s <= INT_MAX)%Z
  /\ (low_db s < high_db s)%Z.

Definition db_to_power_ratio (db : R) : R := Rpower 10 (db / 10).

Definition db_to_amplitude_ratio (db : R) : R := Rpower 10 (db / 20).

Definition db_to_int (s : t) (db : pyfloat) : result pyfloat :=
  PyFloat.py_div_int
    (PyFloat.mul (PyFloat.sub db (PyFloat.of_int (low_db s)))
                 (PyFloat.of_int (INT_MAX - INT_MIN)))
    (high_db s - low_db s).

(** All operands are integers and the divisor is the non-zero
    constant [INT_MAX - INT_MIN], so the result is a finite float. *)
Definition int_to_db (s : t) (val : Z) : R :=
  IZR ((val - INT_MIN) * (high_db s - low_db s)) / IZR (INT_MAX - INT_MIN)
  + IZR (low_db s).

Definition decibel (s : t) : R := int_to_db s (value s).

(** [db_to_int] on a finite [db], as a real number, and the position
    [set_decibel] stores for it: clamped, then rounded. *)
Definition position (s : t) (db : R) : R :=
  (db - IZR (low_db s)) * IZR (INT_MAX - INT_MIN) / IZR (high_db s - low_db s).

Definition stored (s : t) (db : R) : Z :=
  PyFloat.round_half_even
    (Rmin (IZR INT_MAX) (Rmax (IZR INT_MIN) (position s db))).

Definition power_ratio (s : t) : R := db_to_power_ratio (decibel s).

Definition amplitude_ratio (s : t) : R := db_to_amplitude_ratio (decibel s).

(** [value = min(INT_MAX, max(INT_MIN, db_to_int(db)))]. *)
Definition clamped (s : t) (db : pyfloat) : result pyfloat :=
  x <- db_to_int s db ;;
  Ok (PyFloat.py_min (PyFloat.of_int INT_MAX)
        (PyFloat.py_max (PyFloat.of_int INT_MIN) x)).

Definition set_decibel (s : t) (db : pyfloat) : result t :=
  v <- clamped s db ;;
  r <- PyFloat.round v ;;
  Ok (setValue r s).

Definition set_power_ratio (s : t) (pr : pyfloat) : result t :=
  l <- PyFloat.log10 pr ;;
  set_decibel s (PyFloat.mul (Fin 10) l).

Definition set_amplitude_ratio (s : t) (ar : pyfloat) : result t :=
  l <- PyFloat.log10 ar ;;
  set_decibel s (PyFloat.mul (Fin 20) l).

(** *** [paintEvent]: the tick marks of the scale *)

(** [list(range(self.low_db, math.ceil(self.high_db+0.001), 6))]; both
    bounds are integers, so the ceiling is [high_db + 1]. *)
Definition db_val_list (s : t) : list Z :=
  py_range (low_db s) (high_db s + 1) 6.

Definition range_padding : Z := 10.

(** [x_val] of the tick at [val], for a contents rectangle of the given
    width. *)
Definition x_val (s : t) (width : Z) (val : Z) : result pyfloat :=
  db_as_int <- db_to_int s (PyFloat.of_int val) ;;
  Ok (PyFloat.add
        (PyFloat.div
           (PyFloat.mul db_as_int (PyFloat.of_int (width - 2 * range_padding)))
           (PyFloat.of_int (INT_MAX - INT_MIN)))
        (PyFloat.of_int range_padding)).

(** The text of a tick: ['-oo'] or the formatted value. *)
Inductive label : Set :=
| MinusInfinity
| Number (val : Z).

(** The calls made on the painter. *)
Inductive draw : Type :=
| DrawText (x y : Z) (text : label)
| DrawTextRightAligned (x y w h : Z) (text : label)
| DrawLine (x1 y1 x2 y2 : Z).

(** [min(l)] and [max(l)] for a list [l] that holds [d]. *)
Definition list_min (l : list Z) (d : Z) : Z := fold_right Z.min d l.
Definition list_max (l : list Z) (d : Z) : Z := fold_right Z.max d l.

(** The font of the scale: ['Times'], 10 points, so
    [font_x_offset = 5.0]. *)
Definition pointSize : Z := 10.
Definition font_x_offset : R := IZR pointSize / 2.

(** The body of the loop of [paintEvent] for one tick; [y] and [height]
    are those of the contents rectangle, [ascent] the font's. *)
Definition paint_tick (s : t) (width y height : Z) (ascent : R)
    (db_val_list : list Z) (val : Z) : result (list draw) :=
  xv <- x_val s width val ;;
  text <-
    (if Z.eqb val (list_min db_val_list val) && lowest_as_inf s then
       x <- PyFloat.round (PyFloat.add xv (Fin font_x_offset)) ;;
       Ok (DrawText x (y + pointSize) MinusInfinity)
     else if Z.eqb val (list_max db_val_list val) then
       x <- PyFloat.round
              (PyFloat.sub (PyFloat.sub xv (Fin font_x_offset)) (Fin 100)) ;;
       Ok (DrawTextRightAligned x
             (PyFloat.round_half_even (IZR (y + pointSize) - ascent))
             100 (pointSize * 5) (Number val))
     else
       x <- PyFloat.round (PyFloat.add xv (Fin font_x_offset)) ;;
       Ok (DrawText x (y + pointSize) (Number val))) ;;
  x_line <- PyFloat.round xv ;;
  Ok [text; DrawLine x_line (y - pointSize) x_line (y + height)].

Fixpoint paint_ticks (s : t) (width y height : Z) (ascent : R)
    (all vals : list Z) : result (list draw) :=
  match vals with
  | [] => Ok []
  | val :: rest =>
      ds <- paint_tick s width y height ascent all val ;;
      ds' <- paint_ticks s width y height ascent all rest ;;
      Ok (ds ++ ds')
  end.

(** [paintEvent], after the slider itself was painted by Qt. *)
Definition paintEvent (s : t) (width y height : Z) (ascent : R)
  : result (list draw) :=
  paint_ticks s width y height ascent (db_val_list s) (db_val_list s).

End DecibelSlider.

(** ** numpy arrays and the real FFT *)

Module Numpy.

(** A complex number: real and imaginary parts. *)
Definition complex : Type := (pyfloat * pyfloat)%type.

Definition czero : complex := (Fin 0, Fin 0).

(** A float scalar promoted to complex, as numpy does when it
    multiplies a complex array by it. *)
Definition of_float (g : pyfloat) : complex := (g, Fin 0).

Definition cmul (z w : complex) : complex :=
  let '(a, b) := z in
  let '(c, d) := w in
  (PyFloat.sub (PyFloat.mul a c) (PyFloat.mul b d),
   PyFloat.add (PyFloat.mul a d) (PyFloat.mul b c)).

(** [np.abs] of a complex number ([hypot]): an infinite part wins
    over a [nan] part. *)
Definition abs (z : complex) : pyfloat :=
  match z with
  | (PInf, _) | (NInf, _) | (_, PInf) | (_, NInf) => PInf
  | (NaN, _) | (_, NaN) => NaN
  | (Fin a, Fin b) => Fin (sqrt (a * a + b * b))
  end.

(** A bin with finite real and imaginary parts, and its modulus. *)
Definition embed (z : R * R) : complex := (Fin z.1, Fin z.2).

Definition modulus (z : R * R) : R := sqrt (z.1 * z.1 + z.2 * z.2).

(** A finite bin multiplied by the real number [a]. *)
Definition louder (a : R) (z : R * R) : R * R := (a * z.1, a * z.2).

(** The larger of two floats, [nan] if either is [nan]. *)
Definition maximum (a b : pyfloat) : pyfloat :=
  match a, b with
  | NaN, _ | _, NaN => NaN
  | _, _ => if PyFloat.lt a b then b else a
  end.

(** [ndarray.max()]: raises on an empty array. *)
Definition amax (l : list pyfloat) : result pyfloat :=
  match l with
  | [] => Raise ValueError
  | x :: xs => Ok (fold_left maximum xs x)
  end.

Definition Rsum (l : list R) : R := fold_right Rplus 0 l.

(** Bin [k] of the discrete Fourier transform of [x]:
    [sum_n x[n] * exp(-2 pi i k n / N)]. *)
Definition dft_angle (N k n : nat) : R := 2 * PI * INR k * INR n / INR N.

Definition dft_re (x : list R) (k : nat) : R :=
  Rsum (map (fun p => snd p * cos (dft_angle (length x) k (fst p)))
            (combine (seq 0 (length x)) x)).

Definition dft_im (x : list R) (k : nat) : R :=
  - Rsum (map (fun p => snd p * sin (dft_angle (length x) k (fst p)))
              (combine (seq 0 (length x)) x)).

(** [np.fft.rfft]: the bins [0 .. N/2] of the transform of a real
    sequence of length [N]; an empty input is rejected. *)
Definition rfft (x : list R) : result (list complex) :=
  match x with
  | [] => Raise ValueError
  | _ => Ok (map (fun k => (Fin (dft_re x k), Fin (dft_im x k)))
                 (seq 0 (length x / 2 + 1)))
  end.

(** [np.fft.rfftfreq(n, d)]: [arange(0, n//2 + 1) * (1.0 / (n * d))]. *)
Definition rfftfreq (n : Z) (d : R) : list R :=
  let val := 1 / (IZR n * d) in
  map (fun i => INR i * val) (seq 0 (Z.to_nat (n / 2 + 1))).

(** [a[0:k] = 0.0] on a complex array, for [k >= 0]: a stop beyond
    the end is cut at the end. *)
Fixpoint assign_zero_upto (k : nat) (a : list complex) : list complex :=
  match k, a with
  | O, _ => a
  | S _, [] => []
  | S k', _ :: a' => czero :: assign_zero_upto k' a'
  end.

End Numpy.

(** ** The frequency axis in double precision *)

(** [np.fft.rfftfreq] once more, on IEEE binary64 numbers, to evaluate
    the axis with the rounding the real-number model leaves out. *)
Module Binary64.

Definition float : Set := PrimFloat.float.

(** A small non-negative integer as a float. *)
Definition of_int (n : Z) : float := PrimFloat.of_uint63 (Uint63.of_Z n).

Definition rfftfreq (n : Z) (d : float) : list float :=
  let val := PrimFloat.div (of_int 1) (PrimFloat.mul (of_int n) d) in
  map (fun i => PrimFloat.mul (of_int (Z.of_nat i)) val)
      (seq 0 (Z.to_nat (n / 2 + 1))).

(** [rfftfreq(chunksize, 1./rate)]. *)
Definition make_freq_vect (chunksize rate : Z) : list float :=
  rfftfreq chunksize (PrimFloat.div (of_int 1) (of_int rate)).

End Binary64.

(** ** threading.Thread *)

Module Thread.

Inductive t : Set :=
| Initial
| Started
| Stopped.

(** [Thread.start()]: a thread can be started once. *)
Definition start (th : t) : result t :=
  match th with
  | Initial => Ok Started
  | _ => Raise RuntimeError
  end.

(** [Thread.join()], called with no timeout.  Joining a thread that
    was never started raises [RuntimeError]; joining one whose target
    has returned returns at once; joining a running thread waits for
    its target: the call returns if the target does ([returns]) and
    never returns if it does not. *)
Definition join (returns : bool) (th : t) : outcome t :=
  match th with
  | Initial => Raises RuntimeError
  | Stopped => Returns Stopped
  | Started => if returns then Returns Stopped else Blocks
  end.

End Thread.

(** ** MicrophoneRecorder *)

(** One block of samples, flattened to one dimension. *)
Definition chunk : Type := list R.

(** The store of Python list objects, by address. *)
Abbreviation heap := (gmap nat (list chunk)).

Module MicrophoneRecorder.

Record t : Type := mk {
  rate : Z;
  chunksize : Z;
  stop : bool;
  frames : nat;
  thread : Thread.t
}.

Definition set_frames (l : nat) (r : t) : t :=
  mk (rate r) (chunksize r) (stop r) l (thread r).

Definition set_stop (b : bool) (r : t) : t :=
  mk (rate r) (chunksize r) b (frames r) (thread r).

Definition set_thread (th : Thread.t) (r : t) : t :=
  mk (rate r) (chunksize r) (stop r) (frames r) th.

(** The list object an address denotes. *)
Definition deref (h : heap) (l : nat) : list chunk := default [] (h !! l).

(** Allocation of a new empty list object. *)
Definition new_list (h : heap) : nat * heap :=
  let l := fresh (dom h) in (l, <[l := []]> h).

(** [__init__(rate=4000, chunksize=1024)]. *)
Definition init (h : heap) (rate chunksize : Z) : heap * t :=
  let '(l, h') := new_list h in
  (h', mk rate chunksize false l Thread.Initial).

(** [self.frames.append(data)]: the list object is changed in place. *)
Definition append (data : chunk) (h : heap) (r : t) : heap :=
  <[frames r := deref h (frames r) ++ [data]]> h.

(** Several appends in a row. *)
Definition appends (cs : list chunk) (h : heap) (r : t) : heap :=
  fold_left (fun h' c => append c h' r) cs h.

(** The loop of [capture_frames], run on the blocks the recorder
    delivers one after the other; it leaves after the block during
    which [stop] was found set. *)
Fixpoint capture_frames (blocks : list chunk) (h : heap) (r : t) : heap :=
  match blocks with
  | [] => h
  | data :: rest =>
      let h' := append data h r in
      if stop r then h' else capture_frames rest h' r
  end.

(** [get_frames]: hands out the current list object and installs a
    fresh empty one. *)
Definition get_frames (h : heap) (r : t) : nat * heap * t :=
  let frames := frames r in
  let '(l, h') := new_list h in
  (frames, h', set_frames l r).

(** A history of the buffer: the capture thread appends a block, or the
    consumer drains; [run] returns the addresses the drains handed out,
    in order. *)
Inductive event : Type :=
| Capture (data : chunk)
| GetFrames.

Fixpoint run (es : list event) (h : heap) (r : t) : heap * t * list nat :=
  match es with
  | [] => (h, r, [])
  | Capture data :: es' => run es' (append data h r) r
  | GetFrames :: es' =>
      let '(l, h1, r1) := get_frames h r in
      let '(h2, r2, ls) := run es' h1 r1 in
      (h2, r2, l :: ls)
  end.

(** The blocks a history captures, in order. *)
Fixpoint captured (es : list event) : list chunk :=
  match es with
  | [] => []
  | Capture data :: es' => data :: captured es'
  | GetFrames :: es' => captured es'
  end.

Definition start (r : t) : result t :=
  th <- Thread.start (thread r) ;;
  Ok (set_thread th r).

(** Where the capture loop stands when another thread acts on the
    recorder: waiting in [rec.record] for the next block, or past the
    append and about to test [stop]. *)
Inductive loop_position : Set :=
| InRecord
| AtStopTest.

(** The loop of [capture_frames] run to its end on a recorder that
    delivers [blocks] and then nothing more.  [rec.record] blocks until
    a block is there, and [stop] is tested only after the append, so
    the loop leaves ([Some]) only after a block that arrived with
    [stop] set; otherwise it never leaves ([None]). *)
Fixpoint capture_loop (blocks : list chunk) (h : heap) (r : t) : option heap :=
  match blocks with
  | [] => None
  | data :: rest =>
      let h' := append data h r in
      if stop r then Some h' else capture_loop rest h' r
  end.

(** The rest of the capture thread's run, from where the loop stands. *)
Definition resume (p : loop_position) (blocks : list chunk) (h : heap) (r : t)
  : option heap :=
  match p with
  | InRecord => capture_loop blocks h r
  | AtStopTest => if stop r then Some h else capture_loop blocks h r
  end.

(** [close]: sets [stop] and joins the capture thread, with no timeout.
    [p] and [blocks] say where the capture loop stands and which blocks
    the recorder still delivers. *)
Definition close (p : loop_position) (blocks : list chunk) (h : heap) (r : t)
  : outcome (heap * t) :=
  let r1 := set_stop true r in
  let target :=
    match thread r1 with
    | Thread.Started => resume p blocks h r1
    | _ => Some h
    end in
  match Thread.join (match target with Some _ => true | None => false end)
                    (thread r1) with
  | Returns th => Returns (default h target, set_thread th r1)
  | Raises e => Raises e
  | Blocks => Blocks
  end.

End MicrophoneRecorder.

(** ** LiveFFTWidget *)

Module LiveFFTWidget.

(** The class attributes. *)
Definition chunksize : Z := 1024 * 8.
Definition rate : Z := 48000.

(** The widget state the tick reads and writes: the recorder, the
    three controls, the two axes, the data of the two plotted lines
    and the number of redraws. *)
Record t : Type := mk {
  mic : MicrophoneRecorder.t;
  autoGainCheckBox : bool;
  fixedGainSlider : DecibelSlider.t;
  cutoffSlider : nat;
  freq_vect : list R;
  time_vect : list R;
  line_top : list R * list R;
  line_bottom : list R * list pyfloat;
  draws : nat
}.

(** [np.arange(chunksize, dtype=float32) / rate * 1000]. *)
Definition make_time_vect (chunksize rate : Z) : list R :=
  map (fun i => INR i / IZR rate * 1000) (seq 0 (Z.to_nat chunksize)).

(** [np.fft.rfftfreq(chunksize, 1./rate)]. *)
Definition make_freq_vect (chunksize rate : Z) : list R :=
  Numpy.rfftfreq chunksize (1 / IZR rate).

(** [__init__]: [initUI], [initData] and [initMplWidget], for the
    class attributes [chunksize] and [rate]. *)
Definition init (h : heap) (chunksize rate : Z) : result (heap * t) :=
  let '(h', m) := MicrophoneRecorder.init h rate chunksize in
  m' <- MicrophoneRecorder.start m ;;
  let fv := make_freq_vect (MicrophoneRecorder.chunksize m')
                           (MicrophoneRecorder.rate m') in
  let tv := make_time_vect (MicrophoneRecorder.chunksize m')
                           (MicrophoneRecorder.rate m') in
  Ok (h', mk m' true
             (DecibelSlider.init sample_style_3 sample_style_4)
             1%nat fv tv
             (tv, map (fun _ => 1) tv)
             (fv, map (fun _ => Fin 1) fv)
             0%nat).

(** The state [__init__] leaves: the recorder's thread is running. *)
Definition init_state (h : heap) (chunksize rate : Z) : heap * t :=
  let '(h', m) := MicrophoneRecorder.init h rate chunksize in
  let m' := MicrophoneRecorder.set_thread Thread.Started m in
  let fv := make_freq_vect chunksize rate in
  let tv := make_time_vect chunksize rate in
  (h', mk m' true
          (DecibelSlider.init sample_style_3 sample_style_4)
          1%nat fv tv
          (tv, map (fun _ => 1) tv)
          (fv, map (fun _ => Fin 1) fv)
          0%nat).

(** The user ticks or clears the auto-gain box, or moves the cutoff
    slider, between two ticks. *)
Definition setChecked (b : bool) (w : t) : t :=
  mk (mic w) b (fixedGainSlider w) (cutoffSlider w)
     (freq_vect w) (time_vect w) (line_top w) (line_bottom w) (draws w).

Definition setCutoff (k : nat) (w : t) : t :=
  mk (mic w) (autoGainCheckBox w) (fixedGainSlider w) k
     (freq_vect w) (time_vect w) (line_top w) (line_bottom w) (draws w).

(** The gain of a tick and the slider it leaves, from the
    cutoff-filtered spectrum. *)
Definition resolve_gain (w : t) (fft_frame : list Numpy.complex)
  : result (pyfloat * DecibelSlider.t) :=
  if autoGainCheckBox w then
    m <- Numpy.amax (map Numpy.abs fft_frame) ;;
    let gain := PyFloat.mul (PyFloat.np_div float32_overflow (Fin 1) m)
                            (Fin sample_style_2) in
    s <- DecibelSlider.set_power_ratio (fixedGainSlider w) gain ;;
    Ok (gain, s)
  else
    Ok (Fin (DecibelSlider.power_ratio (fixedGainSlider w)), fixedGainSlider w).

(** [fft_frame *= gain]. *)
Definition scale (gain : pyfloat) (fft_frame : list Numpy.complex)
  : list Numpy.complex :=
  map (fun z => Numpy.cmul z (Numpy.of_float gain)) fft_frame.

(** The cutoff-filtered spectrum of a chunk. *)
Definition filtered_spectrum (w : t) (current_frame : chunk)
  : result (list Numpy.complex) :=
  fft_frame <- Numpy.rfft current_frame ;;
  Ok (Numpy.assign_zero_upto (cutoffSlider w) fft_frame).

(** The widget with its recorder replaced, everything else kept. *)
Definition set_mic (m : MicrophoneRecorder.t) (w : t) : t :=
  mk m (autoGainCheckBox w) (fixedGainSlider w) (cutoffSlider w)
     (freq_vect w) (time_vect w) (line_top w) (line_bottom w) (draws w).

Definition handleNewData (h : heap) (w : t) : result (heap * t) :=
  let '(frames, h1, mic1) := MicrophoneRecorder.get_frames h (mic w) in
  match last (MicrophoneRecorder.deref h1 frames) with
  | None => Ok (h1, set_mic mic1 w)
  | Some current_frame =>
      fft_frame <- filtered_spectrum w current_frame ;;
      gs <- resolve_gain w fft_frame ;;
      let '(gain, slider) := gs in
      Ok (h1, mk mic1 (autoGainCheckBox w) slider (cutoffSlider w)
                 (freq_vect w) (time_vect w)
                 (time_vect w, current_frame)
                 (freq_vect w, map Numpy.abs (scale gain fft_frame))
                 (S (draws w)))
  end.

(** The number [cutoffSliderChanged] shows, in Hz, before formatting:
    [cutoffSlider.value()*self.rate/self.chunksize]. *)
Definition cutoffSliderChanged (chunksize rate : Z) (value : nat) : R :=
  INR value * IZR rate / IZR chunksize.

(** The number [fixedGainSliderChanged] shows, in dB, before
    formatting. *)
Definition fixedGainSliderChanged (w : t) : R :=
  DecibelSlider.decibel (fixedGainSlider w).

(** The y range [initMplWidget] gives the bottom plot. *)
Definition bottom_ylim : R * R := (0, sample_style_2).

(** The buffer a tick finds. *)
Definition pending (h : heap) (w : t) : list chunk :=
  MicrophoneRecorder.deref h (MicrophoneRecorder.frames (mic w)).

(** What a tick does with the chunk it picked: the second branch of
    [handleNewData], for the store and recorder the drain left. *)
Definition process (h1 : heap) (mic1 : MicrophoneRecorder.t) (w : t)
    (current_frame : chunk) : result (heap * t) :=
  fft_frame <- filtered_spectrum w current_frame ;;
  gs <- resolve_gain w fft_frame ;;
  Ok (h1, mk mic1 (autoGainCheckBox w) gs.2 (cutoffSlider w)
             (freq_vect w) (time_vect w)
             (time_vect w, current_frame)
             (freq_vect w, map Numpy.abs (scale gs.1 fft_frame))
             (S (draws w))).

End LiveFFTWidget.

(** * Properties *)

(** ** The capture buffer *)

Section CaptureBuffer.

Import MicrophoneRecorder.

Lemma deref_insert_eq (h : heap) (l : nat) (v : list chunk) :
  deref (<[l := v]> h) l = v.
Proof. unfold deref. by rewrite lookup_insert_eq. Qed.

Lemma deref_insert_ne (h : heap) (l l' : nat) (v : list chunk) :
  l ≠ l' -> deref (<[l := v]> h) l' = deref h l'.
Proof. intros Hne. unfold deref. by rewrite lookup_insert_ne. Qed.

Lemma append_dom (c : chunk) (h : heap) (r : t) (l : nat) :
  l ∈ dom h -> l ∈ dom (append c h r).
Proof. unfold append. rewrite dom_insert. set_solver. Qed.

Lemma appends_dom (cs : list chunk) (h : heap) (r : t) (l : nat) :
  l ∈ dom h -> l ∈ dom (appends cs h r).
Proof.
  revert h. induction cs as [|c cs IH]; intros h Hl; [exact Hl|].
  apply IH, append_dom, Hl.
Qed.

Lemma appends_deref (cs : list chunk) (h : heap) (r : t) :
  deref (appends cs h r) (frames r) = deref h (frames r) ++ cs.
Proof.
  revert h. induction cs as [|c cs IH]; intros h; simpl.
  - by rewrite app_nil_r.
  - change (deref (appends cs (append c h r) r) (frames r)
            = deref h (frames r) ++ c :: cs).
    rewrite IH. unfold append at 1. rewrite deref_insert_eq.
    by rewrite <- app_assoc.
Qed.

Lemma appends_deref_other (cs : list chunk) (h : heap) (r : t) (l : nat) :
  l ≠ frames r -> deref (appends cs h r) l = deref h l.
Proof.
  intros Hne. revert h. induction cs as [|c cs IH]; intros h; [done|].
  change (deref (appends cs (append c h r) r) l = deref h l).
  rewrite IH. unfold append. by rewrite deref_insert_ne.
Qed.

(** While [stop] is clear, the capture loop appends every block. *)
Lemma capture_frames_running (cs : list chunk) (h : heap) (r : t) :
  stop r = false -> capture_frames cs h r = appends cs h r.
Proof.
  intros Hs. revert h. induction cs as [|c cs IH]; intros h; [done|].
  simpl. rewrite Hs. apply IH.
Qed.

Lemma new_list_fresh (h : heap) : (new_list h).1 ∉ dom h.
Proof. unfold new_list; simpl. apply is_fresh. Qed.

Lemma get_frames_spec (h : heap) (r : t) :
  frames r ∈ dom h ->
  exists l' : nat,
    (l' ∉ dom h) /\
    get_frames h r = (frames r, <[l' := []]> h, set_frames l' r).
Proof.
  intros Hin. exists (fresh (dom h)). split; [apply is_fresh|done].
Qed.

(** When the capture loop leaves, it has done what [capture_frames]
    does on the same blocks. *)
Lemma capture_loop_frames (blocks : list chunk) (h h' : heap) (r : t) :
  capture_loop blocks h r = Some h' -> h' = capture_frames blocks h r.
Proof.
  revert h. induction blocks as [|data rest IH]; intros h; [done|].
  cbn [capture_loop capture_frames]. destruct (stop r); [by intros [= <-]|].
  apply IH.
Qed.

(** What a drain hands out, whatever the state of the store. *)
Lemma get_frames_deref (h : heap) (r : t) :
  deref (get_frames h r).1.2 (get_frames h r).1.1 = deref h (frames r)
  /\ deref (get_frames h r).1.2 (frames (get_frames h r).2) = [].
Proof.
  unfold get_frames, new_list; simpl. split.
  - destruct (decide (fresh (dom h) = frames r)) as [E|E].
    + rewrite E, deref_insert_eq. unfold deref.
      assert (H : h !! frames r = None).
      { apply not_elem_of_dom. rewrite <- E. apply is_fresh. }
      by rewrite H.
    + by rewrite deref_insert_ne.
  - apply deref_insert_eq.
Qed.

End CaptureBuffer.

(** C4. After [N] appends to an empty buffer, one drain hands out
    exactly the [N] chunks in append order and leaves the internal
    buffer empty, so the next drain hands out the empty list; the list
    handed out is a different object from the new buffer, so later
    appends never show up in it. *)
Theorem get_frames_exhaustive_exclusive
    (h : heap) (r : MicrophoneRecorder.t) (cs : list chunk) :
  h !! MicrophoneRecorder.frames r = Some [] ->
  exists (l : nat) (h1 : heap) (r1 : MicrophoneRecorder.t),
    MicrophoneRecorder.get_frames (MicrophoneRecorder.appends cs h r) r = (l, h1, r1)
    /\ MicrophoneRecorder.deref h1 l = cs
    /\ MicrophoneRecorder.deref h1 (MicrophoneRecorder.frames r1) = []
    /\ (exists (l' : nat) (h2 : heap) (r2 : MicrophoneRecorder.t),
          MicrophoneRecorder.get_frames h1 r1 = (l', h2, r2)
          /\ MicrophoneRecorder.deref h2 l' = []
          /\ MicrophoneRecorder.deref h2 l = cs)
    /\ (forall more : list chunk,
          MicrophoneRecorder.deref (MicrophoneRecorder.appends more h1 r1) l = cs
          /\ MicrophoneRecorder.deref (MicrophoneRecorder.appends more h1 r1)
               (MicrophoneRecorder.frames r1) = more).
Proof.
  intros Hempty.
  assert (Hin : MicrophoneRecorder.frames r ∈ dom (MicrophoneRecorder.appends cs h r)).
  { apply appends_dom, elem_of_dom. by exists []. }
  destruct (get_frames_spec _ _ Hin) as (l' & Hfresh & Hget).
  assert (Hne : l' ≠ MicrophoneRecorder.frames r) by (intros ->; contradiction).
  assert (Hcs : MicrophoneRecorder.deref (MicrophoneRecorder.appends cs h r)
                  (MicrophoneRecorder.frames r) = cs).
  { rewrite appends_deref. unfold MicrophoneRecorder.deref. by rewrite Hempty. }
  eexists _, _, _. split; [exact Hget|]. simpl.
  split; [by rewrite deref_insert_ne|].
  split; [apply deref_insert_eq|].
  split.
  - eexists _, _, _. split; [reflexivity|].
    pose proof (get_frames_deref (<[l' := []]> (MicrophoneRecorder.appends cs h r))
                  (MicrophoneRecorder.set_frames l' r)) as [H1 _].
    simpl in H1. split.
    + etransitivity; [exact H1|]. apply deref_insert_eq.
    + unfold MicrophoneRecorder.get_frames, MicrophoneRecorder.new_list; simpl.
      rewrite deref_insert_ne, deref_insert_ne; [exact Hcs|exact Hne|].
      intros E.
      pose proof (is_fresh (dom (<[l' := []]> (MicrophoneRecorder.appends cs h r)))) as Hf.
      rewrite E in Hf. apply Hf. rewrite dom_insert. set_solver.
  - intros more. split.
    + rewrite appends_deref_other by (simpl; congruence).
      by rewrite deref_insert_ne.
    + rewrite appends_deref. simpl. by rewrite deref_insert_eq.
Qed.

(** The recorder as [__init__] leaves it has an empty buffer. *)
Lemma init_buffer_empty (h : heap) (rate chunksize : Z) :
  (MicrophoneRecorder.init h rate chunksize).1
    !! MicrophoneRecorder.frames (MicrophoneRecorder.init h rate chunksize).2
  = Some [].
Proof.
  unfold MicrophoneRecorder.init, MicrophoneRecorder.new_list; simpl.
  apply lookup_insert_eq.
Qed.

Lemma get_frames_exhaustive_exclusive_witness :
  let st := MicrophoneRecorder.init ∅ 4000 1024 in
  exists (l : nat) (h1 : heap) (r1 : MicrophoneRecorder.t),
    MicrophoneRecorder.get_frames (MicrophoneRecorder.appends [[1; 2]; [3; 4]; [5; 6]] st.1 st.2) st.2
    = (l, h1, r1)
    /\ MicrophoneRecorder.deref h1 l = [[1; 2]; [3; 4]; [5; 6]]
    /\ MicrophoneRecorder.deref h1 (MicrophoneRecorder.frames r1) = []
    /\ (exists (l' : nat) (h2 : heap) (r2 : MicrophoneRecorder.t),
          MicrophoneRecorder.get_frames h1 r1 = (l', h2, r2)
          /\ MicrophoneRecorder.deref h2 l' = []
          /\ MicrophoneRecorder.deref h2 l = [[1; 2]; [3; 4]; [5; 6]])
    /\ (forall more : list chunk,
          MicrophoneRecorder.deref (MicrophoneRecorder.appends more h1 r1) l
          = [[1; 2]; [3; 4]; [5; 6]]
          /\ MicrophoneRecorder.deref (MicrophoneRecorder.appends more h1 r1)
               (MicrophoneRecorder.frames r1) = more).
Proof.
  intros st.
  apply (get_frames_exhaustive_exclusive st.1 st.2 [[1; 2]; [3; 4]; [5; 6]]).
  apply init_buffer_empty.
Defined.

(** ** Teardown *)

(** C3. [close] on a recorder whose [start] was never called does not
    complete: [Thread.join] on the thread that never ran raises
    [RuntimeError], whatever the store holds and whatever the sound
    card would deliver. *)
Theorem close_unstarted_raises
    (p : MicrophoneRecorder.loop_position) (blocks : list chunk)
    (h0 h : heap) (rate chunksize : Z) :
  MicrophoneRecorder.close p blocks h0
    (MicrophoneRecorder.init h rate chunksize).2
  = Raises RuntimeError.
Proof. reflexivity. Qed.

(** After [start], [close] returns once the capture loop has appended
    the block it was waiting for, and leaves the thread stopped; it
    never returns if that block never arrives. *)
Lemma close_started (h0 h : heap) (rate chunksize : Z)
    (data : chunk) (rest : list chunk) :
  exists r r' : MicrophoneRecorder.t,
    MicrophoneRecorder.start (MicrophoneRecorder.init h rate chunksize).2 = Ok r
    /\ MicrophoneRecorder.close MicrophoneRecorder.InRecord (data :: rest) h0 r
       = Returns (MicrophoneRecorder.append data h0 r, r')
    /\ MicrophoneRecorder.stop r' = true
    /\ MicrophoneRecorder.thread r' = Thread.Stopped
    /\ MicrophoneRecorder.close MicrophoneRecorder.InRecord [] h0 r = Blocks.
Proof. eexists _, _. repeat split. Qed.

(** ** The tick *)

Section Tick.

Import LiveFFTWidget.

Lemma handleNewData_cases (h : heap) (w : t) :
  exists (h1 : heap) (mic1 : MicrophoneRecorder.t),
    MicrophoneRecorder.deref h1 (MicrophoneRecorder.frames mic1) = []
    /\ handleNewData h w =
       match last (pending h w) with
       | None => Ok (h1, set_mic mic1 w)
       | Some current_frame => process h1 mic1 w current_frame
       end.
Proof.
  unfold handleNewData, pending.
  destruct (get_frames_deref h (mic w)) as [Hold Hnew].
  destruct (MicrophoneRecorder.get_frames h (mic w)) as [[l h1] mic1].
  simpl in Hold, Hnew. exists h1, mic1. split; [exact Hnew|].
  rewrite Hold.
  destruct (last _) as [c|]; [|done].
  unfold process.
  destruct (filtered_spectrum w c) as [fft|e]; [|done]; simpl.
  destruct (resolve_gain w fft) as [[g s]|e]; done.
Qed.

Lemma process_drained h1 mic1 w c h' w' :
  process h1 mic1 w c = Ok (h', w') -> h' = h1 /\ mic w' = mic1.
Proof.
  unfold process.
  destruct (filtered_spectrum w c) as [fft|e]; [|done]; simpl.
  destruct (resolve_gain w fft) as [gs|e]; [|done]; simpl.
  intros [= <- <-]. done.
Qed.

End Tick.

(** C10. With auto-gain off the gain is the slider's power ratio and
    the tick hands the slider back as it found it. *)
Theorem handleNewData_manual_gain_keeps_slider (h : heap) (w : LiveFFTWidget.t) :
  LiveFFTWidget.autoGainCheckBox w = false ->
  (forall fft_frame,
     LiveFFTWidget.resolve_gain w fft_frame
     = Ok (Fin (DecibelSlider.power_ratio (LiveFFTWidget.fixedGainSlider w)),
           LiveFFTWidget.fixedGainSlider w))
  /\ match LiveFFTWidget.handleNewData h w with
     | Ok (_, w') =>
         LiveFFTWidget.fixedGainSlider w' = LiveFFTWidget.fixedGainSlider w
     | Raise e =>
         e = ValueError /\ last (LiveFFTWidget.pending h w) = Some []
     end.
Proof.
  intros Hoff.
  assert (Hg : forall fft_frame,
     LiveFFTWidget.resolve_gain w fft_frame
     = Ok (Fin (DecibelSlider.power_ratio (LiveFFTWidget.fixedGainSlider w)),
           LiveFFTWidget.fixedGainSlider w)).
  { intros fft. unfold LiveFFTWidget.resolve_gain. by rewrite Hoff. }
  split; [exact Hg|].
  destruct (handleNewData_cases h w) as (h1 & mic1 & _ & ->).
  destruct (last _) as [c|]; [|done].
  unfold LiveFFTWidget.process, LiveFFTWidget.filtered_spectrum.
  destruct c as [|x c]; [done|]. simpl. by rewrite Hg.
Qed.

(** ** The cutoff *)

Section Cutoff.

Import Numpy.

Lemma assign_zero_upto_length (k : nat) (a : list complex) :
  length (assign_zero_upto k a) = length a.
Proof.
  revert a. induction k as [|k IH]; intros [|z a]; simpl; auto.
Qed.

Lemma assign_zero_upto_below (k i : nat) (a : list complex) :
  (i < k)%nat -> (i < length a)%nat ->
  assign_zero_upto k a !! i = Some czero.
Proof.
  revert i a. induction k as [|k IH]; intros i [|z a] Hk Hlen; simpl in *;
    try lia.
  destruct i as [|i]; [done|]. simpl. apply IH; lia.
Qed.

Lemma assign_zero_upto_above (k i : nat) (a : list complex) :
  (k <= i)%nat -> assign_zero_upto k a !! i = a !! i.
Proof.
  revert i a. induction k as [|k IH]; intros i [|z a] Hk; simpl; try done.
  destruct i as [|i]; [lia|]. simpl. apply IH; lia.
Qed.

Lemma rfft_nonempty (x : list R) :
  x <> [] ->
  rfft x = Ok (map (fun k => (Fin (dft_re x k), Fin (dft_im x k)))
                   (seq 0 (length x / 2 + 1))).
Proof. destruct x; [congruence|reflexivity]. Qed.

Lemma rfft_length (x : list R) (fft_frame : list complex) :
  rfft x = Ok fft_frame -> length fft_frame = (length x / 2 + 1)%nat.
Proof.
  destruct x as [|v x]; [done|]. intros [= <-].
  by rewrite length_map, length_seq.
Qed.

Lemma scale_lookup (g : pyfloat) (a : list complex) (i : nat) (z : complex) :
  a !! i = Some z ->
  LiveFFTWidget.scale g a !! i = Some (cmul z (of_float g)).
Proof.
  unfold LiveFFTWidget.scale. revert i.
  induction a as [|y a IH]; intros [|i] Hz; simpl in *; try done.
  - by injection Hz as ->.
  - by apply IH.
Qed.

End Cutoff.

(** C6. For a chunk of length [N] and a cutoff [k <= N/2], the filtered
    spectrum has the [N/2 + 1] bins of the transform; the bins below
    [k] are zero and every bin from [k] to [N/2] is the transform's
    bin, so that after scaling it is that bin times the gain. *)
Theorem cutoff_zeroes_exactly_prefix (w : LiveFFTWidget.t) (x : chunk) :
  x <> [] ->
  (LiveFFTWidget.cutoffSlider w <= length x / 2)%nat ->
  exists fft_frame filtered : list Numpy.complex,
    Numpy.rfft x = Ok fft_frame
    /\ LiveFFTWidget.filtered_spectrum w x = Ok filtered
    /\ length fft_frame = (length x / 2 + 1)%nat
    /\ length filtered = (length x / 2 + 1)%nat
    /\ (forall i : nat, (i < LiveFFTWidget.cutoffSlider w)%nat ->
          filtered !! i = Some Numpy.czero)
    /\ (forall i : nat,
          (LiveFFTWidget.cutoffSlider w <= i)%nat -> (i <= length x / 2)%nat ->
          exists z : Numpy.complex,
            fft_frame !! i = Some z
            /\ filtered !! i = Some z
            /\ forall gain : pyfloat,
                 LiveFFTWidget.scale gain filtered !! i
                 = Some (Numpy.cmul z (Numpy.of_float gain))).
Proof.
  intros Hx Hk.
  destruct (Numpy.rfft x) as [fft|e] eqn:Hfft;
    [|rewrite rfft_nonempty in Hfft by exact Hx; discriminate].
  pose proof (rfft_length _ _ Hfft) as Hlen.
  exists fft, (Numpy.assign_zero_upto (LiveFFTWidget.cutoffSlider w) fft).
  split; [reflexivity|].
  split; [unfold LiveFFTWidget.filtered_spectrum; by rewrite Hfft|].
  split; [exact Hlen|].
  split; [by rewrite assign_zero_upto_length|].
  split.
  - intros i Hi. apply assign_zero_upto_below; lia.
  - intros i Hlo Hhi.
    destruct (lookup_lt_is_Some_2 fft i) as [z Hz]; [lia|].
    exists z. split; [exact Hz|].
    assert (Hf : Numpy.assign_zero_upto (LiveFFTWidget.cutoffSlider w) fft !! i
                 = Some z)
      by (rewrite assign_zero_upto_above; [exact Hz|exact Hlo]).
    split; [exact Hf|].
    intros gain. by apply scale_lookup.
Qed.

(** ** Rounding and clamping *)

Section Rounding.

Import PyFloat.

Lemma floor_bounds (x : R) : IZR (floor x) <= x < IZR (floor x) + 1.
Proof.
  unfold floor. rewrite minus_IZR.
  destruct (archimed x) as [Hgt Hle]. lra.
Qed.

Lemma floor_unique (x : R) (n : Z) : IZR n <= x < IZR n + 1 -> floor x = n.
Proof.
  intros [Hlo Hhi]. destruct (floor_bounds x) as [Flo Fhi].
  assert (H1 : (floor x < n + 1)%Z).
  { apply lt_IZR. rewrite plus_IZR. lra. }
  assert (H2 : (n < floor x + 1)%Z).
  { apply lt_IZR. rewrite plus_IZR. lra. }
  lia.
Qed.

Lemma floor_IZR (n : Z) : floor (IZR n) = n.
Proof. apply floor_unique. lra. Qed.

Lemma floor_mono (x y : R) : x <= y -> (floor x <= floor y)%Z.
Proof.
  intros Hxy.
  destruct (floor_bounds x) as [Xlo _]. destruct (floor_bounds y) as [_ Yhi].
  assert (H : (floor x < floor y + 1)%Z).
  { apply lt_IZR. rewrite plus_IZR. lra. }
  lia.
Qed.

(** The rounded value is the floor or the integer above it. *)
Lemma round_half_even_cases (x : R) :
  (round_half_even x = floor x /\ x - IZR (floor x) <= 1 / 2)
  \/ (round_half_even x = (floor x + 1)%Z /\ 1 / 2 <= x - IZR (floor x)).
Proof.
  unfold round_half_even.
  destruct (Rlt_dec (x - IZR (floor x)) (1 / 2)) as [H1|H1];
    [left; split; [reflexivity|lra]|].
  destruct (Rlt_dec (1 / 2) (x - IZR (floor x))) as [H2|H2];
    [right; split; [reflexivity|lra]|].
  destruct (Z.even (floor x)); [left|right]; (split; [reflexivity|lra]).
Qed.

Lemma round_half_even_near (x : R) :
  - (1 / 2) <= IZR (round_half_even x) - x <= 1 / 2.
Proof.
  destruct (floor_bounds x) as [Flo Fhi].
  destruct (round_half_even_cases x) as [[-> H]|[-> H]];
    try rewrite plus_IZR; lra.
Qed.

Lemma round_half_even_error (x : R) :
  Rabs (IZR (round_half_even x) - x) <= 1 / 2.
Proof. apply Rabs_le, round_half_even_near. Qed.

Lemma round_half_even_IZR (n : Z) : round_half_even (IZR n) = n.
Proof.
  unfold round_half_even. rewrite floor_IZR.
  destruct (Rlt_dec (IZR n - IZR n) (1 / 2)) as [H|H]; [done|lra].
Qed.

Lemma round_half_even_mono (x y : R) :
  x <= y -> (round_half_even x <= round_half_even y)%Z.
Proof.
  intros Hxy. pose proof (floor_mono x y Hxy) as Hf.
  destruct (Z.eq_dec (floor x) (floor y)) as [E|NE].
  - unfold round_half_even. rewrite E.
    destruct (Rlt_dec (x - IZR (floor y)) (1 / 2)) as [X1|X1];
    destruct (Rlt_dec (y - IZR (floor y)) (1 / 2)) as [Y1|Y1];
    try destruct (Rlt_dec (1 / 2) (x - IZR (floor y))) as [X2|X2];
    try destruct (Rlt_dec (1 / 2) (y - IZR (floor y))) as [Y2|Y2];
    try destruct (Z.even (floor y)); try lia; exfalso; lra.
  - destruct (round_half_even_cases x) as [[-> _]|[-> _]];
    destruct (round_half_even_cases y) as [[-> _]|[-> _]]; lia.
Qed.

Lemma py_max_fin (a x : R) : py_max (Fin a) (Fin x) = Fin (Rmax a x).
Proof.
  unfold py_max, lt, Rmax.
  destruct (Rlt_dec a x), (Rle_dec a x); try done; try lra.
  f_equal. lra.
Qed.

Lemma py_min_fin (a x : R) : py_min (Fin a) (Fin x) = Fin (Rmin a x).
Proof.
  unfold py_min, lt, Rmin.
  destruct (Rlt_dec x a), (Rle_dec a x); try done; lra.
Qed.

Lemma Rsign_pos (x : R) : 0 < x -> Rsign x = Gt.
Proof. intros H. unfold Rsign. destruct (Rlt_dec 0 x); [done|lra]. Qed.

Lemma Rsign_zero : Rsign 0 = Eq.
Proof.
  unfold Rsign. destruct (Rlt_dec 0 0); [lra|]. done.
Qed.

End Rounding.

(** ** The decibel slider *)

Section Slider.

Import DecibelSlider.

Variable s : DecibelSlider.t.
Hypothesis Hwf : wf s.

Lemma span_pos : 0 < IZR (high_db s - low_db s).
Proof. destruct Hwf as (_ & _ & _ & H). apply IZR_lt. lia. Qed.

Lemma db_to_int_fin (db : R) : db_to_int s (Fin db) = Ok (Fin (position s db)).
Proof.
  unfold db_to_int, PyFloat.py_div_int.
  destruct (Z.eqb_spec (high_db s - low_db s) 0) as [E|_].
  - pose proof span_pos as H. rewrite E in H. lra.
  - simpl. by rewrite (Rsign_pos _ span_pos).
Qed.

Lemma position_mono (d1 d2 : R) : d1 <= d2 -> position s d1 <= position s d2.
Proof.
  intros H. unfold position.
  change (INT_MAX - INT_MIN)%Z with 1000000%Z.
  apply Rmult_le_compat_r; [left; apply Rinv_0_lt_compat, span_pos|lra].
Qed.

Lemma position_range (db : R) :
  IZR (low_db s) <= db <= IZR (high_db s) -> 0 <= position s db <= IZR INT_MAX.
Proof.
  intros [Hlo Hhi]. pose proof span_pos as Hs.
  unfold position.
  change (INT_MAX - INT_MIN)%Z with 1000000%Z.
  change INT_MAX with 1000000%Z.
  rewrite minus_IZR in Hs |- *.
  split.
  - apply Rmult_le_pos; [nra|left; apply Rinv_0_lt_compat, Hs].
  - replace 1000000
      with ((IZR (high_db s) - IZR (low_db s)) * 1000000
            / (IZR (high_db s) - IZR (low_db s))) at 2 by (field; lra).
    apply Rmult_le_compat_r; [left; apply Rinv_0_lt_compat, Hs|nra].
Qed.

(** Infinities and [nan] pass through the affine map. *)
Lemma db_to_int_special (db : pyfloat) :
  (forall x : R, db <> Fin x) -> db_to_int s db = Ok db.
Proof.
  intros Hdb.
  assert (Hone : 0 < IZR (INT_MAX - INT_MIN)) by (apply IZR_lt; done).
  unfold db_to_int, PyFloat.py_div_int.
  destruct (Z.eqb_spec (high_db s - low_db s) 0) as [E|_].
  - pose proof span_pos as H. rewrite E in H. lra.
  - destruct db as [d| | |]; [by destruct (Hdb d)| | |]; simpl;
      rewrite ?(Rsign_pos _ Hone); simpl; by rewrite ?(Rsign_pos _ span_pos).
Qed.

(** The clamp always lands on a finite value of the legal range. *)
Lemma clamped_total (db : pyfloat) :
  exists v : R, clamped s db = Ok (Fin v) /\ 0 <= v <= IZR INT_MAX.
Proof.
  assert (Hmax : 0 <= IZR INT_MAX) by (apply IZR_le; done).
  assert (Hone : 0 < IZR (INT_MAX - INT_MIN)) by (apply IZR_lt; done).
  destruct db as [d| | |].
  - exists (Rmin (IZR INT_MAX) (Rmax (IZR INT_MIN) (position s d))).
    unfold clamped. rewrite db_to_int_fin. simpl.
    unfold PyFloat.of_int. rewrite py_max_fin, py_min_fin.
    split; [done|].
    change (IZR INT_MIN) with 0.
    unfold Rmin, Rmax.
    destruct (Rle_dec 0 (position s d)), (Rle_dec (IZR INT_MAX) _); lra.
  - exists (IZR INT_MAX). split; [|lra].
    unfold clamped. by rewrite db_to_int_special.
  - exists 0. split; [|lra].
    unfold clamped. rewrite db_to_int_special by done.
    cbn [bind PyFloat.py_max PyFloat.lt PyFloat.of_int].
    unfold PyFloat.of_int. rewrite py_min_fin.
    change (IZR INT_MIN) with 0. f_equal. f_equal.
    apply Rmin_right. exact Hmax.
  - exists 0. split; [|lra].
    unfold clamped. rewrite db_to_int_special by done.
    cbn [bind PyFloat.py_max PyFloat.lt PyFloat.of_int].
    unfold PyFloat.of_int. rewrite py_min_fin.
    change (IZR INT_MIN) with 0. f_equal. f_equal.
    apply Rmin_right. exact Hmax.
Qed.

Lemma clamped_fin (db : R) :
  clamped s (Fin db)
  = Ok (Fin (Rmin (IZR INT_MAX) (Rmax (IZR INT_MIN) (position s db)))).
Proof.
  unfold clamped. rewrite db_to_int_fin. simpl.
  unfold PyFloat.of_int. by rewrite py_max_fin, py_min_fin.
Qed.

Lemma round_in_range (v : R) :
  0 <= v <= IZR INT_MAX ->
  (INT_MIN <= PyFloat.round_half_even v <= INT_MAX)%Z.
Proof.
  intros [Hlo Hhi]. split.
  - pose proof (round_half_even_mono _ _ Hlo) as H.
    by rewrite (round_half_even_IZR 0) in H.
  - pose proof (round_half_even_mono _ _ Hhi) as H.
    by rewrite round_half_even_IZR in H.
Qed.

Lemma setValue_in_range (v : Z) :
  (INT_MIN <= v <= INT_MAX)%Z -> value (setValue v s) = v /\ wf (setValue v s).
Proof.
  intros Hv. destruct Hwf as (Hmin & Hmax & Hval & Hdb).
  unfold setValue, wf; simpl. rewrite Hmin, Hmax.
  repeat split; try done; lia.
Qed.

(** [set_decibel] never raises; it stores the rounded clamped value. *)
Lemma set_decibel_total (db : pyfloat) :
  exists (v : R) (s' : DecibelSlider.t),
    clamped s db = Ok (Fin v)
    /\ 0 <= v <= IZR INT_MAX
    /\ set_decibel s db = Ok s'
    /\ value s' = PyFloat.round_half_even v
    /\ low_db s' = low_db s /\ high_db s' = high_db s
    /\ wf s'.
Proof.
  destruct (clamped_total db) as (v & Hc & Hv).
  pose proof (round_in_range v Hv) as Hr.
  destruct (setValue_in_range _ Hr) as [Hval Hwf'].
  exists v, (setValue (PyFloat.round_half_even v) s).
  unfold set_decibel. rewrite Hc. simpl. done.
Qed.

Lemma int_to_db_mono (p q : Z) : (p <= q)%Z -> int_to_db s p <= int_to_db s q.
Proof.
  intros Hpq. unfold int_to_db.
  change (INT_MAX - INT_MIN)%Z with 1000000%Z.
  apply Rplus_le_compat_r, Rmult_le_compat_r; [lra|].
  apply IZR_le. destruct Hwf as (_ & _ & _ & H). unfold INT_MIN. nia.
Qed.

End Slider.

(** C7. For [low_db <= db <= high_db], [set_decibel] stores the affine
    image of [db] rounded to the nearest integer, and reading the
    slider back gives [db] up to one position quantum
    [(high_db - low_db) / INT_MAX]. *)
Theorem set_decibel_round_trip (s : DecibelSlider.t) (db : R) :
  DecibelSlider.wf s ->
  IZR (DecibelSlider.low_db s) <= db <= IZR (DecibelSlider.high_db s) ->
  exists s' : DecibelSlider.t,
    DecibelSlider.set_decibel s (Fin db) = Ok s'
    /\ DecibelSlider.value s'
       = PyFloat.round_half_even
           ((db - IZR (DecibelSlider.low_db s)) * IZR DecibelSlider.INT_MAX
            / IZR (DecibelSlider.high_db s - DecibelSlider.low_db s))
    /\ Rabs (DecibelSlider.decibel s' - db)
       <= IZR (DecibelSlider.high_db s - DecibelSlider.low_db s)
          / IZR DecibelSlider.INT_MAX.
Proof.
  intros Hwf Hdb.
  destruct (set_decibel_total s Hwf (Fin db))
    as (v & s' & Hc & Hv & Hset & Hval & Hlow & Hhigh & Hwf').
  pose proof (position_range s Hwf db Hdb) as Hpos.
  rewrite (clamped_fin s Hwf) in Hc.
  change (IZR DecibelSlider.INT_MIN) with 0 in Hc.
  rewrite Rmax_right, Rmin_right in Hc by lra.
  injection Hc as <-.
  exists s'. split; [exact Hset|]. split; [exact Hval|].
  unfold DecibelSlider.decibel, DecibelSlider.int_to_db.
  rewrite Hval, Hlow, Hhigh. unfold DecibelSlider.position in *.
  set (x := (db - IZR (DecibelSlider.low_db s))
            * IZR (DecibelSlider.INT_MAX - DecibelSlider.INT_MIN)
            / IZR (DecibelSlider.high_db s - DecibelSlider.low_db s)) in *.
  pose proof (round_half_even_near x) as Herr.
  assert (HD : 0 < IZR (DecibelSlider.high_db s - DecibelSlider.low_db s)).
  { destruct Hwf as (_ & _ & _ & H). apply IZR_lt. lia. }
  assert (Hx : db = x * IZR (DecibelSlider.high_db s - DecibelSlider.low_db s)
                    / 1000000 + IZR (DecibelSlider.low_db s)).
  { unfold x. change (DecibelSlider.INT_MAX - DecibelSlider.INT_MIN)%Z
      with 1000000%Z. field. lra. }
  unfold DecibelSlider.INT_MIN. rewrite Z.sub_0_r, mult_IZR.
  change (DecibelSlider.INT_MAX - 0)%Z with 1000000%Z.
  change DecibelSlider.INT_MAX with 1000000%Z.
  set (D := IZR (DecibelSlider.high_db s - DecibelSlider.low_db s)) in *.
  set (P := IZR (PyFloat.round_half_even x)) in *.
  apply Rabs_le. rewrite Hx at 1 2. clearbody D P x. nra.
Qed.

Lemma set_decibel_round_trip_witness :
  exists s' : DecibelSlider.t,
    DecibelSlider.set_decibel (DecibelSlider.init (-24) 24) (Fin 6) = Ok s'
    /\ DecibelSlider.value s'
       = PyFloat.round_half_even ((6 - IZR (-24)) * IZR 1000000 / IZR (24 - -24))
    /\ Rabs (DecibelSlider.decibel s' - 6) <= IZR (24 - -24) / IZR 1000000.
Proof.
  apply (set_decibel_round_trip (DecibelSlider.init (-24) 24) 6).
  - unfold DecibelSlider.wf; simpl. repeat split; done.
  - simpl. lra.
Defined.

Section SliderOrder.

Import DecibelSlider.

Variable s : DecibelSlider.t.
Hypothesis Hwf : wf s.

Lemma set_decibel_fin (db : R) :
  exists s' : DecibelSlider.t,
    set_decibel s (Fin db) = Ok s'
    /\ value s' = stored s db
    /\ low_db s' = low_db s /\ high_db s' = high_db s /\ wf s'.
Proof.
  destruct (set_decibel_total s Hwf (Fin db))
    as (v & s' & Hc & Hv & Hset & Hval & Hlow & Hhigh & Hwf').
  rewrite (clamped_fin s Hwf) in Hc. injection Hc as <-.
  exists s'. done.
Qed.

Lemma stored_mono (d1 d2 : R) : d1 <= d2 -> (stored s d1 <= stored s d2)%Z.
Proof.
  intros H. unfold stored. apply round_half_even_mono.
  pose proof (position_mono s Hwf d1 d2 H) as Hp.
  revert Hp. generalize (IZR INT_MAX) (IZR INT_MIN).
  generalize (position s d1) (position s d2).
  intros a b hi lo Hp.
  unfold Rmax. destruct (Rle_dec lo a), (Rle_dec lo b);
    unfold Rmin;
    repeat match goal with
           | |- context [Rle_dec ?x ?y] => destruct (Rle_dec x y)
           end; lra.
Qed.

Lemma stored_below (db : R) : db <= IZR (low_db s) -> stored s db = INT_MIN.
Proof.
  intros H.
  pose proof (position_mono s Hwf _ _ H) as Hp. unfold position in Hp.
  pose proof (position_range s Hwf (IZR (low_db s))) as Hr. unfold position in Hr.
  assert (Hspan : IZR (low_db s) <= IZR (high_db s)).
  { destruct Hwf as (_ & _ & _ & Hlt). apply IZR_le. lia. }
  assert (H0 : (IZR (low_db s) - IZR (low_db s))
               * IZR (INT_MAX - INT_MIN) / IZR (high_db s - low_db s) = 0).
  { unfold Rdiv. rewrite Rminus_diag. ring. }
  rewrite H0 in Hp. unfold stored, position.
  change (IZR INT_MIN) with 0. rewrite Rmax_left by exact Hp.
  rewrite Rmin_right by (apply IZR_le; done).
  apply (round_half_even_IZR 0).
Qed.

Lemma stored_above (db : R) : IZR (high_db s) <= db -> stored s db = INT_MAX.
Proof.
  intros H.
  pose proof (position_mono s Hwf _ _ H) as Hp. unfold position in Hp.
  assert (HD : 0 < IZR (high_db s - low_db s)).
  { destruct Hwf as (_ & _ & _ & Hlt). apply IZR_lt. lia. }
  assert (H1 : (IZR (high_db s) - IZR (low_db s))
               * IZR (INT_MAX - INT_MIN) / IZR (high_db s - low_db s)
               = IZR INT_MAX).
  { change (INT_MAX - INT_MIN)%Z with INT_MAX.
    rewrite minus_IZR in HD |- *. field. lra. }
  rewrite H1 in Hp. unfold stored, position.
  assert (H0 : 0 <= IZR INT_MAX) by (apply IZR_le; done).
  change (IZR INT_MIN) with 0. rewrite Rmax_right by lra.
  rewrite Rmin_left by exact Hp.
  apply round_half_even_IZR.
Qed.

Lemma log10_fin (pr : R) :
  0 < pr -> PyFloat.log10 (Fin pr) = Ok (Fin (ln pr / ln 10)).
Proof.
  intros H. unfold PyFloat.log10. destruct (Rlt_dec 0 pr); [done|lra].
Qed.

Lemma set_power_ratio_fin (pr : R) :
  0 < pr ->
  set_power_ratio s (Fin pr) = set_decibel s (Fin (10 * (ln pr / ln 10))).
Proof.
  intros H. unfold set_power_ratio. by rewrite (log10_fin pr H).
Qed.

Lemma ln10_pos : 0 < ln 10.
Proof. rewrite <- ln_1. apply ln_increasing; lra. Qed.

Lemma log10_mono (p q : R) :
  0 < p -> p <= q -> 10 * (ln p / ln 10) <= 10 * (ln q / ln 10).
Proof.
  intros Hp Hpq. pose proof ln10_pos as H10.
  assert (Hln : ln p <= ln q).
  { destruct Hpq as [Hlt| ->]; [left; by apply ln_increasing|lra]. }
  apply Rmult_le_compat_l; [lra|].
  apply Rmult_le_compat_r; [left; by apply Rinv_0_lt_compat|exact Hln].
Qed.

End SliderOrder.

(** C8. Under the class invariant, [set_decibel] raises for no argument,
    finite or not, and leaves the position inside [INT_MIN, INT_MAX]: a
    value at or below [low_db] lands on [INT_MIN], one at or above
    [high_db] on [INT_MAX].  For positive power ratios
    [set_power_ratio] does not raise either, and the decibel value read
    back afterwards is monotone in the ratio. *)
Theorem set_decibel_clamps_monotonically (s : DecibelSlider.t) :
  DecibelSlider.wf s ->
  (forall db : pyfloat,
     exists s' : DecibelSlider.t,
       DecibelSlider.set_decibel s db = Ok s' /\ DecibelSlider.wf s')
  /\ (forall db : R,
        exists s' : DecibelSlider.t,
          DecibelSlider.set_decibel s (Fin db) = Ok s'
          /\ (db <= IZR (DecibelSlider.low_db s) ->
              DecibelSlider.value s' = DecibelSlider.INT_MIN)
          /\ (IZR (DecibelSlider.high_db s) <= db ->
              DecibelSlider.value s' = DecibelSlider.INT_MAX))
  /\ (forall pr1 pr2 : R,
        0 < pr1 -> pr1 <= pr2 ->
        exists s1 s2 : DecibelSlider.t,
          DecibelSlider.set_power_ratio s (Fin pr1) = Ok s1
          /\ DecibelSlider.set_power_ratio s (Fin pr2) = Ok s2
          /\ DecibelSlider.wf s1 /\ DecibelSlider.wf s2
          /\ (DecibelSlider.value s1 <= DecibelSlider.value s2)%Z
          /\ DecibelSlider.decibel s1 <= DecibelSlider.decibel s2).
Proof.
  intros Hwf. split; [|split].
  - intros db.
    destruct (set_decibel_total s Hwf db)
      as (v & s' & _ & _ & Hset & _ & _ & _ & Hwf').
    by exists s'.
  - intros db.
    destruct (set_decibel_fin s Hwf db) as (s' & Hset & Hval & _).
    exists s'. split; [exact Hset|]. split; intros H; rewrite Hval.
    + by apply stored_below.
    + by apply stored_above.
  - intros pr1 pr2 Hpos Hle.
    assert (Hpos2 : 0 < pr2) by lra.
    pose proof (log10_mono pr1 pr2 Hpos Hle) as Hdb.
    destruct (set_decibel_fin s Hwf (10 * (ln pr1 / ln 10)))
      as (s1 & Hset1 & Hval1 & Hlow1 & Hhigh1 & Hwf1).
    destruct (set_decibel_fin s Hwf (10 * (ln pr2 / ln 10)))
      as (s2 & Hset2 & Hval2 & Hlow2 & Hhigh2 & Hwf2).
    pose proof (stored_mono s Hwf _ _ Hdb) as Hst.
    exists s1, s2.
    rewrite !set_power_ratio_fin by assumption.
    assert (Hv : (DecibelSlider.value s1 <= DecibelSlider.value s2)%Z)
      by (rewrite Hval1, Hval2; exact Hst).
    do 5 (split; [assumption|]).
    unfold DecibelSlider.decibel.
    transitivity (DecibelSlider.int_to_db s1 (DecibelSlider.value s2)).
    + by apply int_to_db_mono.
    + unfold DecibelSlider.int_to_db. rewrite Hlow1, Hhigh1, Hlow2, Hhigh2.
      apply Rle_refl.
Qed.

Lemma set_decibel_clamps_monotonically_witness :
  (exists s' : DecibelSlider.t,
     DecibelSlider.set_decibel (DecibelSlider.init (-24) 24) PInf = Ok s'
     /\ DecibelSlider.wf s')
  /\ (exists s1 s2 : DecibelSlider.t,
        DecibelSlider.set_power_ratio (DecibelSlider.init (-24) 24) (Fin 1) = Ok s1
        /\ DecibelSlider.set_power_ratio (DecibelSlider.init (-24) 24) (Fin 2) = Ok s2
        /\ DecibelSlider.wf s1 /\ DecibelSlider.wf s2
        /\ (DecibelSlider.value s1 <= DecibelSlider.value s2)%Z
        /\ DecibelSlider.decibel s1 <= DecibelSlider.decibel s2).
Proof.
  assert (Hwf : DecibelSlider.wf (DecibelSlider.init (-24) 24))
    by (unfold DecibelSlider.wf; simpl; repeat split; done).
  destruct (set_decibel_clamps_monotonically _ Hwf) as (Hany & _ & Hmono).
  split.
  - apply Hany.
  - apply (Hmono 1 2); lra.
Defined.

(** ** Magnitudes of a finite spectrum *)

Section Magnitudes.

Import Numpy.

Lemma modulus_nonneg (z : R * R) : 0 <= modulus z.
Proof. apply sqrt_pos. Qed.

Lemma abs_embed (z : R * R) : abs (embed z) = Fin (modulus z).
Proof. by destruct z. Qed.

Lemma map_abs_embed (zs : list (R * R)) :
  map abs (map embed zs) = map Fin (map modulus zs).
Proof. rewrite !map_map. apply map_ext, abs_embed. Qed.

Lemma maximum_fin (a b : R) : maximum (Fin a) (Fin b) = Fin (Rmax a b).
Proof. apply py_max_fin. Qed.

Lemma fold_maximum_fin (ms : list R) (m : R) :
  fold_left maximum (map Fin ms) (Fin m) = Fin (fold_left Rmax ms m).
Proof.
  revert m. induction ms as [|x ms IH]; intros m; [done|].
  cbn [map fold_left]. rewrite maximum_fin. apply IH.
Qed.

Lemma fold_Rmax_scale (g : R) (ms : list R) (m : R) :
  0 <= g ->
  fold_left Rmax (map (Rmult g) ms) (g * m) = g * fold_left Rmax ms m.
Proof.
  intros Hg. revert m. induction ms as [|x ms IH]; intros m; [done|].
  cbn [map fold_left]. rewrite RmaxRmult by exact Hg. apply IH.
Qed.

Lemma fold_Rmax_ge (ms : list R) (m : R) :
  m <= fold_left Rmax ms m /\ Forall (fun x => x <= fold_left Rmax ms m) ms.
Proof.
  revert m. induction ms as [|x ms IH]; intros m; simpl.
  - split; [lra|constructor].
  - destruct (IH (Rmax m x)) as [H1 H2].
    pose proof (Rmax_l m x). pose proof (Rmax_r m x).
    split; [lra|]. constructor; [lra|exact H2].
Qed.

(** Scaling a finite bin by a finite non-negative gain scales its
    magnitude. *)
Lemma abs_scale_embed (g : R) (z : R * R) :
  0 <= g ->
  abs (cmul (embed z) (of_float (Fin g))) = Fin (g * modulus z).
Proof.
  intros Hg. destruct z as [a b]. unfold embed, of_float, modulus; simpl.
  f_equal.
  replace ((a * g + - (b * 0)) * (a * g + - (b * 0))
           + (a * 0 + b * g) * (a * 0 + b * g))
    with ((g * g) * (a * a + b * b)) by ring.
  assert (Hsq : 0 <= a * a + b * b) by nra.
  rewrite sqrt_mult by nra. by rewrite sqrt_square.
Qed.

(** A bin of magnitude zero becomes [nan] under an infinite gain. *)
Lemma abs_scale_zero_inf (z : R * R) :
  modulus z = 0 -> abs (cmul (embed z) (of_float PInf)) = NaN.
Proof.
  destruct z as [a b]. unfold modulus; simpl. intros Hm.
  apply sqrt_eq_0 in Hm; [|nra].
  assert (Ha : a = 0) by nra. assert (Hb : b = 0) by nra. subst.
  by rewrite Rsign_zero.
Qed.

(** The bins [rfft] and the cutoff produce are finite. *)
Lemma assign_zero_upto_embed (k : nat) (zs : list (R * R)) :
  exists zs' : list (R * R),
    assign_zero_upto k (map embed zs) = map embed zs'
    /\ length zs' = length zs.
Proof.
  revert zs. induction k as [|k IH]; intros zs.
  - by exists zs.
  - destruct zs as [|z zs]; [by exists []|].
    destruct (IH zs) as (zs' & Hz & Hl).
    exists ((0, 0) :: zs'). simpl. rewrite Hz, Hl. done.
Qed.

Lemma filtered_spectrum_embed (w : LiveFFTWidget.t) (x : chunk)
    (fft_frame : list complex) :
  LiveFFTWidget.filtered_spectrum w x = Ok fft_frame ->
  exists zs : list (R * R), fft_frame = map embed zs /\ zs <> [].
Proof.
  unfold LiveFFTWidget.filtered_spectrum.
  destruct x as [|v x]; [done|]. rewrite rfft_nonempty by done. simpl bind.
  intros [= <-].
  set (bins := map (fun k => (dft_re (v :: x) k, dft_im (v :: x) k))
                   (seq 0 (length (v :: x) / 2 + 1))).
  destruct (assign_zero_upto_embed (LiveFFTWidget.cutoffSlider w) bins)
    as (zs' & Hz & Hl).
  exists zs'. split.
  - rewrite <- Hz. unfold bins. by rewrite map_map.
  - intros ->. unfold bins in Hl. rewrite length_map, length_seq in Hl.
    simpl in Hl. lia.
Qed.

End Magnitudes.

(** ** Automatic gain *)

Section AutoGain.

Import Numpy LiveFFTWidget.

Lemma amax_embed (z : R * R) (zs : list (R * R)) :
  amax (map abs (map embed (z :: zs)))
  = Ok (Fin (fold_left Rmax (map modulus zs) (modulus z))).
Proof.
  rewrite map_abs_embed. cbn [map amax]. by rewrite fold_maximum_fin.
Qed.

Lemma scale_embed (g : R) (zs : list (R * R)) :
  0 <= g ->
  map abs (scale (Fin g) (map embed zs))
  = map Fin (map (Rmult g) (map modulus zs)).
Proof.
  intros Hg. unfold scale. rewrite !map_map. apply map_ext.
  intros z. by apply abs_scale_embed.
Qed.


(** A finite spectrum whose largest magnitude is zero is zero
    everywhere. *)
Lemma amax_zero (zs : list (R * R)) :
  amax (map abs (map embed zs)) = Ok (Fin 0) ->
  Forall (fun z => modulus z = 0) zs.
Proof.
  destruct zs as [|z zs]; [constructor|].
  rewrite amax_embed. intros [= Hmax].
  destruct (fold_Rmax_ge (map modulus zs) (modulus z)) as [Hz Hzs].
  rewrite Hmax in Hz, Hzs.
  pose proof (modulus_nonneg z) as Hn.
  constructor; [lra|].
  clear Hz Hn Hmax. induction zs as [|y zs IH]; [constructor|].
  cbn [map] in Hzs. inversion Hzs as [|? ? Hy Hrest]; subst.
  pose proof (modulus_nonneg y) as Hny.
  constructor; [lra|by apply IH].
Qed.

Lemma scale_zero_inf (zs : list (R * R)) :
  Forall (fun z => modulus z = 0) zs ->
  map abs (scale PInf (map embed zs)) = map (fun _ => NaN) (map embed zs).
Proof.
  intros Hz. unfold scale. rewrite !map_map.
  induction Hz as [|z zs Hm _ IH]; [done|].
  cbn [map]. by rewrite IH, (abs_scale_zero_inf z Hm).
Qed.

Lemma float32_overflow_pos : 1 < float32_overflow.
Proof. unfold float32_overflow. apply IZR_lt. reflexivity. Qed.

(** The gain of an auto-gain tick, from the largest magnitude: its
    reciprocal where that is below the overflow threshold, [+inf] from
    there on and for a zero maximum. *)
Lemma auto_gain_positive (M : R) :
  0 < M ->
  1 / M < float32_overflow ->
  PyFloat.mul (PyFloat.np_div float32_overflow (Fin 1) (Fin M))
              (Fin sample_style_2)
  = Fin (sample_style_2 / M).
Proof.
  intros HM Hfit. unfold PyFloat.np_div, PyFloat.div.
  rewrite (Rsign_pos M HM). unfold PyFloat.overflow.
  assert (Hpos : 0 < 1 / M) by (apply Rdiv_lt_0_compat; lra).
  pose proof float32_overflow_pos as Hb.
  destruct (Rle_dec float32_overflow (1 / M)); [lra|].
  destruct (Rle_dec (1 / M) (- float32_overflow)); [lra|].
  cbn [PyFloat.mul]. f_equal. unfold sample_style_2. field. lra.
Qed.

Lemma one_fits : 1 / 1 < float32_overflow.
Proof. replace (1 / 1) with 1 by field. apply float32_overflow_pos. Qed.

Lemma auto_gain_overflow (M : R) :
  0 < M ->
  float32_overflow <= 1 / M ->
  PyFloat.mul (PyFloat.np_div float32_overflow (Fin 1) (Fin M))
              (Fin sample_style_2)
  = PInf.
Proof.
  intros HM Hover. unfold PyFloat.np_div, PyFloat.div.
  rewrite (Rsign_pos M HM). unfold PyFloat.overflow.
  destruct (Rle_dec float32_overflow (1 / M)); [|lra].
  cbn [PyFloat.mul].
  by rewrite (Rsign_pos sample_style_2) by (unfold sample_style_2; lra).
Qed.

Lemma auto_gain_zero :
  PyFloat.mul (PyFloat.np_div float32_overflow (Fin 1) (Fin 0))
              (Fin sample_style_2)
  = PInf.
Proof.
  unfold PyFloat.np_div, PyFloat.div.
  rewrite Rsign_zero, (Rsign_pos 1) by lra.
  cbn [PyFloat.signed_inf PyFloat.overflow PyFloat.mul].
  by rewrite (Rsign_pos sample_style_2) by (unfold sample_style_2; lra).
Qed.

(** An infinite power ratio drives the slider to its upper end. *)
Lemma set_power_ratio_inf (s : DecibelSlider.t) :
  DecibelSlider.wf s ->
  exists s' : DecibelSlider.t,
    DecibelSlider.set_power_ratio s PInf = Ok s'
    /\ DecibelSlider.value s' = DecibelSlider.INT_MAX
    /\ DecibelSlider.wf s'.
Proof.
  intros Hwf. unfold DecibelSlider.set_power_ratio.
  cbn [PyFloat.log10 bind PyFloat.mul].
  rewrite (Rsign_pos 10) by lra. cbn [PyFloat.signed_inf].
  destruct (set_decibel_total s Hwf PInf)
    as (v & s' & Hc & _ & Hset & Hval & _ & _ & Hwf').
  unfold DecibelSlider.clamped in Hc.
  rewrite (db_to_int_special s Hwf) in Hc by done.
  injection Hc as <-.
  exists s'. split; [exact Hset|]. split; [|exact Hwf'].
  rewrite Hval. apply round_half_even_IZR.
Qed.

End AutoGain.

(** A tick on a buffer that ends in [c], once the gain is known. *)
Lemma handleNewData_step
    (h : heap) (w : LiveFFTWidget.t) (earlier : list chunk) (c : chunk)
    (fft_frame : list Numpy.complex) (gain : pyfloat) (s' : DecibelSlider.t) :
  LiveFFTWidget.pending h w = earlier ++ [c] ->
  LiveFFTWidget.filtered_spectrum w c = Ok fft_frame ->
  LiveFFTWidget.resolve_gain w fft_frame = Ok (gain, s') ->
  exists (h' : heap) (w' : LiveFFTWidget.t),
    LiveFFTWidget.handleNewData h w = Ok (h', w')
    /\ LiveFFTWidget.fixedGainSlider w' = s'
    /\ (LiveFFTWidget.line_bottom w').2
       = map Numpy.abs (LiveFFTWidget.scale gain fft_frame).
Proof.
  intros Hpend Hfilt Hres.
  destruct (handleNewData_cases h w) as (h1 & mic1 & _ & Hrun).
  rewrite Hpend, last_snoc in Hrun.
  unfold LiveFFTWidget.process in Hrun.
  rewrite Hfilt in Hrun. cbn [bind] in Hrun. rewrite Hres in Hrun.
  cbn [bind fst snd] in Hrun.
  eexists _, _. split; [exact Hrun|]. by cbn.
Qed.

(** The gain an auto-gain tick resolves on a zero spectrum. *)
Lemma resolve_gain_zero_spectrum
    (w : LiveFFTWidget.t) (fft_frame : list Numpy.complex) :
  LiveFFTWidget.autoGainCheckBox w = true ->
  DecibelSlider.wf (LiveFFTWidget.fixedGainSlider w) ->
  Numpy.amax (map Numpy.abs fft_frame) = Ok (Fin 0) ->
  exists s' : DecibelSlider.t,
    LiveFFTWidget.resolve_gain w fft_frame = Ok (PInf, s')
    /\ DecibelSlider.value s' = DecibelSlider.INT_MAX.
Proof.
  intros Hauto Hwf Hmax.
  destruct (set_power_ratio_inf _ Hwf) as (s' & Hset & Hval & _).
  exists s'. split; [|exact Hval].
  unfold LiveFFTWidget.resolve_gain. rewrite Hauto, Hmax. cbn [bind].
  by rewrite auto_gain_zero, Hset.
Qed.

(** ** Two test signals: silence and the unit impulse *)

Section TestSignals.

Import Numpy.

Lemma init_ok (h : heap) (chunksize rate : Z) :
  LiveFFTWidget.init h chunksize rate
  = Ok (LiveFFTWidget.init_state h chunksize rate).
Proof. reflexivity. Qed.

Lemma init_state_pending (h : heap) (chunksize rate : Z) (c : chunk) :
  let st := LiveFFTWidget.init_state h chunksize rate in
  LiveFFTWidget.pending
    (MicrophoneRecorder.append c st.1 (LiveFFTWidget.mic st.2)) st.2
  = [] ++ [c].
Proof.
  cbn. unfold LiveFFTWidget.pending, MicrophoneRecorder.append; cbn.
  rewrite deref_insert_eq. by rewrite deref_insert_eq.
Qed.

Lemma init_state_wf (h : heap) (chunksize rate : Z) :
  DecibelSlider.wf
    (LiveFFTWidget.fixedGainSlider (LiveFFTWidget.init_state h chunksize rate).2).
Proof. cbn. unfold DecibelSlider.wf; cbn. repeat split; done. Qed.

Lemma Rsum_weighted_zero (f : nat * R -> R) (l : list nat) (x : list R) :
  Forall (fun v => v = 0) x ->
  Rsum (map (fun p => p.2 * f p) (combine l x)) = 0.
Proof.
  intros Hx. revert l. induction Hx as [|v x Hv _ IH]; intros [|n l]; try done.
  cbn [combine map Rsum fold_right snd]. subst v.
  change (fold_right Rplus 0 ?a) with (Rsum a). rewrite IH. ring.
Qed.

Lemma dft_zero (x : list R) (k : nat) :
  Forall (fun v => v = 0) x -> dft_re x k = 0 /\ dft_im x k = 0.
Proof.
  intros Hx. unfold dft_re, dft_im. split.
  - apply (Rsum_weighted_zero
             (fun p => cos (dft_angle (length x) k p.1)) _ _ Hx).
  - rewrite (Rsum_weighted_zero
               (fun p => sin (dft_angle (length x) k p.1)) _ _ Hx). ring.
Qed.

Lemma dft_angle_0 (N k : nat) : dft_angle N k 0 = 0.
Proof. unfold dft_angle, Rdiv. cbn [INR]. ring. Qed.

Lemma dft_impulse (zs : list R) (k : nat) :
  Forall (fun v => v = 0) zs ->
  dft_re (1 :: zs) k = 1 /\ dft_im (1 :: zs) k = 0.
Proof.
  intros Hz. unfold dft_re, dft_im.
  cbn [length seq combine map Rsum fold_right fst snd].
  change (fold_right Rplus 0 ?a) with (Rsum a).
  rewrite dft_angle_0, cos_0, sin_0.
  rewrite (Rsum_weighted_zero
             (fun p => cos (dft_angle (S (length zs)) k p.1)) _ _ Hz).
  rewrite (Rsum_weighted_zero
             (fun p => sin (dft_angle (S (length zs)) k p.1)) _ _ Hz).
  split; ring.
Qed.

Lemma abs_czero : abs czero = Fin 0.
Proof.
  unfold czero, abs. f_equal.
  replace (0 * 0 + 0 * 0) with 0 by ring. apply sqrt_0.
Qed.

Lemma abs_one : abs (Fin 1, Fin 0) = Fin 1.
Proof.
  unfold abs. f_equal.
  replace (1 * 1 + 0 * 0) with 1 by ring. apply sqrt_1.
Qed.

Lemma assign_zero_upto_zeros (k n : nat) :
  assign_zero_upto k (repeat czero n) = repeat czero n.
Proof.
  revert n. induction k as [|k IH]; intros [|n]; try done.
  cbn [repeat assign_zero_upto]. by rewrite IH.
Qed.

Lemma amax_zeros (n : nat) :
  amax (map abs (repeat czero (S n))) = Ok (Fin 0).
Proof.
  cbn [repeat map amax]. rewrite abs_czero. f_equal.
  induction n as [|n IH]; [done|].
  cbn [repeat map fold_left]. by rewrite abs_czero, maximum_fin, Rmax_left by lra.
Qed.

(** Silence: the filtered spectrum of an all-zero chunk is zero. *)
Lemma silence_spectrum (w : LiveFFTWidget.t) (x : chunk) :
  x <> [] ->
  Forall (fun v => v = 0) x ->
  exists fft_frame : list complex,
    LiveFFTWidget.filtered_spectrum w x = Ok fft_frame
    /\ amax (map abs fft_frame) = Ok (Fin 0).
Proof.
  intros Hne Hx. unfold LiveFFTWidget.filtered_spectrum.
  rewrite (rfft_nonempty x Hne). cbn [bind].
  rewrite (map_ext _ (fun _ => czero))
    by (intros k; destruct (dft_zero x k Hx) as [-> ->]; done).
  rewrite map_const, length_seq, Nat.add_1_r, assign_zero_upto_zeros.
  eexists. split; [reflexivity|]. apply amax_zeros.
Qed.

End TestSignals.

(** C2, as the code has it.  On an auto-gain tick whose cutoff-filtered
    spectrum is zero everywhere the tick does not raise, but nothing is
    skipped: the gain is [+inf], [set_power_ratio] moves the slider to
    [INT_MAX], and every displayed magnitude is [nan]. *)
Theorem auto_gain_on_zero_spectrum
    (h : heap) (w : LiveFFTWidget.t) (earlier : list chunk) (c : chunk)
    (fft_frame : list Numpy.complex) :
  LiveFFTWidget.autoGainCheckBox w = true ->
  DecibelSlider.wf (LiveFFTWidget.fixedGainSlider w) ->
  LiveFFTWidget.pending h w = earlier ++ [c] ->
  LiveFFTWidget.filtered_spectrum w c = Ok fft_frame ->
  Numpy.amax (map Numpy.abs fft_frame) = Ok (Fin 0) ->
  exists (h' : heap) (w' : LiveFFTWidget.t),
    LiveFFTWidget.handleNewData h w = Ok (h', w')
    /\ LiveFFTWidget.resolve_gain w fft_frame
       = Ok (PInf, LiveFFTWidget.fixedGainSlider w')
    /\ DecibelSlider.value (LiveFFTWidget.fixedGainSlider w')
       = DecibelSlider.INT_MAX
    /\ (LiveFFTWidget.line_bottom w').2 = map (fun _ => NaN) fft_frame.
Proof.
  intros Hauto Hwf Hpend Hfilt Hmax.
  destruct (resolve_gain_zero_spectrum w fft_frame Hauto Hwf Hmax)
    as (s' & Hres & Hval).
  destruct (handleNewData_step h w earlier c fft_frame PInf s' Hpend Hfilt Hres)
    as (h' & w' & Hrun & Hs & Hline).
  exists h', w'. split; [exact Hrun|]. rewrite Hs, Hline.
  split; [exact Hres|]. split; [exact Hval|].
  destruct (filtered_spectrum_embed _ _ _ Hfilt) as (zs & -> & _).
  apply scale_zero_inf, amax_zero, Hmax.
Qed.

(** The widget as [__init__] leaves it for chunk size 8, after the
    capture thread delivered one chunk of silence. *)
Lemma silence_state :
  let st := LiveFFTWidget.init_state ∅ 8 48000 in
  let h := MicrophoneRecorder.append (repeat 0 8) st.1 (LiveFFTWidget.mic st.2) in
  LiveFFTWidget.autoGainCheckBox st.2 = true
  /\ DecibelSlider.wf (LiveFFTWidget.fixedGainSlider st.2)
  /\ LiveFFTWidget.pending h st.2 = [] ++ [repeat 0 8]
  /\ exists fft_frame : list Numpy.complex,
       LiveFFTWidget.filtered_spectrum st.2 (repeat 0 8) = Ok fft_frame
       /\ Numpy.amax (map Numpy.abs fft_frame) = Ok (Fin 0).
Proof.
  intros st h. split; [reflexivity|].
  split; [apply init_state_wf|].
  split; [apply init_state_pending|].
  apply silence_spectrum; [done|].
  repeat constructor.
Qed.

Lemma auto_gain_on_zero_spectrum_witness :
  let st := LiveFFTWidget.init_state ∅ 8 48000 in
  let h := MicrophoneRecorder.append (repeat 0 8) st.1 (LiveFFTWidget.mic st.2) in
  exists (fft_frame : list Numpy.complex) (h' : heap) (w' : LiveFFTWidget.t),
    LiveFFTWidget.handleNewData h st.2 = Ok (h', w')
    /\ LiveFFTWidget.resolve_gain st.2 fft_frame
       = Ok (PInf, LiveFFTWidget.fixedGainSlider w')
    /\ DecibelSlider.value (LiveFFTWidget.fixedGainSlider w')
       = DecibelSlider.INT_MAX
    /\ (LiveFFTWidget.line_bottom w').2 = map (fun _ => NaN) fft_frame.
Proof.
  intros st h.
  destruct silence_state as (Hauto & Hwf & Hpend & fft & Hfilt & Hmax).
  exists fft.
  exact (auto_gain_on_zero_spectrum h st.2 [] (repeat 0 8) fft
           Hauto Hwf Hpend Hfilt Hmax).
Defined.

(** C2, as claimed, fails: on a chunk of silence the auto-gain tick
    does not keep the slider where it was (position 0 after
    [__init__]); it moves it to [INT_MAX]. *)
Lemma silence_tick_moves_slider :
  let st := LiveFFTWidget.init_state ∅ 8 48000 in
  let h := MicrophoneRecorder.append (repeat 0 8) st.1 (LiveFFTWidget.mic st.2) in
  DecibelSlider.value (LiveFFTWidget.fixedGainSlider st.2) = 0%Z
  /\ exists (h' : heap) (w' : LiveFFTWidget.t),
       LiveFFTWidget.handleNewData h st.2 = Ok (h', w')
       /\ DecibelSlider.value (LiveFFTWidget.fixedGainSlider w') = 1000000%Z
       /\ LiveFFTWidget.fixedGainSlider w' <> LiveFFTWidget.fixedGainSlider st.2.
Proof.
  intros st h. split; [reflexivity|].
  destruct silence_state as (Hauto & Hwf & Hpend & fft & Hfilt & Hmax).
  destruct (resolve_gain_zero_spectrum st.2 fft Hauto Hwf Hmax)
    as (s' & Hres & Hval).
  destruct (handleNewData_step h st.2 [] (repeat 0 8) fft PInf s'
              Hpend Hfilt Hres) as (h' & w' & Hrun & Hs & _).
  exists h', w'. rewrite Hs. split; [exact Hrun|]. split; [exact Hval|].
  intros E. rewrite E in Hval. discriminate Hval.
Qed.

(** The same widget after one chunk holding the unit impulse: with the
    default cutoff of one bin, the filtered spectrum is a zero followed
    by four ones, of largest magnitude 1. *)
Lemma impulse_state :
  let st := LiveFFTWidget.init_state ∅ 8 48000 in
  let c := 1 :: repeat 0 7 in
  let h := MicrophoneRecorder.append c st.1 (LiveFFTWidget.mic st.2) in
  let fft_frame := Numpy.czero :: repeat (Fin 1, Fin 0) 4 in
  LiveFFTWidget.autoGainCheckBox st.2 = true
  /\ DecibelSlider.wf (LiveFFTWidget.fixedGainSlider st.2)
  /\ LiveFFTWidget.pending h st.2 = [] ++ [c]
  /\ LiveFFTWidget.filtered_spectrum st.2 c = Ok fft_frame
  /\ Numpy.amax (map Numpy.abs fft_frame) = Ok (Fin 1).
Proof.
  intros st c h fft.
  split; [reflexivity|].
  split; [apply init_state_wf|].
  split; [apply init_state_pending|].
  split.
  - subst c fft. unfold LiveFFTWidget.filtered_spectrum.
    rewrite rfft_nonempty by done. cbn [bind].
    assert (Hz : Forall (fun v => v = 0) (repeat 0 7)) by (repeat constructor).
    rewrite (map_ext _ (fun _ => (Fin 1, Fin 0)))
      by (intros k; destruct (dft_impulse _ k Hz) as [-> ->]; done).
    reflexivity.
  - unfold fft. cbn [repeat map Numpy.amax fold_left].
    rewrite abs_czero, !abs_one, !maximum_fin.
    rewrite (Rmax_right 0 1) by lra. by rewrite !(Rmax_left 1 1) by lra.
Qed.

Lemma handleNewData_manual_gain_keeps_slider_witness :
  let st := LiveFFTWidget.init_state ∅ 8 48000 in
  let w := LiveFFTWidget.setChecked false st.2 in
  let h := MicrophoneRecorder.append (1 :: repeat 0 7) st.1 (LiveFFTWidget.mic w) in
  (forall fft_frame,
     LiveFFTWidget.resolve_gain w fft_frame
     = Ok (Fin (DecibelSlider.power_ratio (LiveFFTWidget.fixedGainSlider w)),
           LiveFFTWidget.fixedGainSlider w))
  /\ match LiveFFTWidget.handleNewData h w with
     | Ok (_, w') =>
         LiveFFTWidget.fixedGainSlider w' = LiveFFTWidget.fixedGainSlider w
     | Raise e =>
         e = ValueError /\ last (LiveFFTWidget.pending h w) = Some []
     end.
Proof.
  intros st w h.
  apply (handleNewData_manual_gain_keeps_slider h w). reflexivity.
Defined.

Lemma cutoff_zeroes_exactly_prefix_witness :
  let w := LiveFFTWidget.setCutoff 3 (LiveFFTWidget.init_state ∅ 8 48000).2 in
  let x := 1 :: repeat 0 7 in
  exists fft_frame filtered : list Numpy.complex,
    Numpy.rfft x = Ok fft_frame
    /\ LiveFFTWidget.filtered_spectrum w x = Ok filtered
    /\ length fft_frame = 5%nat
    /\ length filtered = 5%nat
    /\ (forall i : nat, (i < 3)%nat -> filtered !! i = Some Numpy.czero)
    /\ (forall i : nat,
          (3 <= i)%nat -> (i <= 4)%nat ->
          exists z : Numpy.complex,
            fft_frame !! i = Some z
            /\ filtered !! i = Some z
            /\ forall gain : pyfloat,
                 LiveFFTWidget.scale gain filtered !! i
                 = Some (Numpy.cmul z (Numpy.of_float gain))).
Proof.
  intros w x.
  apply (cutoff_zeroes_exactly_prefix w x).
  - discriminate.
  - cbn. lia.
Defined.

(** ** The axes *)

(** C9. For chunk size 8 and rate 48000 the frequency axis is
    [0, 6000, 12000, 18000, 24000], the transform of any chunk of eight
    samples has five bins, and the time axis has the eight entries
    [i / rate * 1000]. *)
Theorem axes_chunk8_rate48000 :
  let w := (LiveFFTWidget.init_state ∅ 8 48000).2 in
  LiveFFTWidget.freq_vect w = [0; 6000; 12000; 18000; 24000]
  /\ length (LiveFFTWidget.freq_vect w) = 5%nat
  /\ (forall x0 x1 x2 x3 x4 x5 x6 x7 : R,
        exists fft_frame : list Numpy.complex,
          Numpy.rfft [x0; x1; x2; x3; x4; x5; x6; x7] = Ok fft_frame
          /\ length fft_frame = 5%nat)
  /\ length (LiveFFTWidget.time_vect w) = 8%nat
  /\ LiveFFTWidget.time_vect w
     = map (fun i => INR i / 48000 * 1000) [0; 1; 2; 3; 4; 5; 6; 7]%nat.
Proof.
  assert (Hf : LiveFFTWidget.freq_vect (LiveFFTWidget.init_state ∅ 8 48000).2
               = [0; 6000; 12000; 18000; 24000]).
  { cbn [LiveFFTWidget.init_state MicrophoneRecorder.init
         MicrophoneRecorder.new_list snd LiveFFTWidget.freq_vect].
    unfold LiveFFTWidget.make_freq_vect, Numpy.rfftfreq.
    change (Z.to_nat (8 / 2 + 1)) with 5%nat.
    cbn [seq map INR].
    do 4 (f_equal; [field|]). f_equal. field. }
  intros w. subst w. split; [exact Hf|]. split; [by rewrite Hf|].
  split.
  - intros. eexists. split; [reflexivity|]. by rewrite length_map, length_seq.
  - split; reflexivity.
Qed.

(** The frequency axis of C9 is exact in binary64 as well: the
    roundings of [1./48000] and of its inverse cancel. *)
Lemma freq_vect_binary64 :
  Binary64.make_freq_vect 8 48000
  = map Binary64.of_int [0; 6000; 12000; 18000; 24000]%Z.
Proof. vm_compute. reflexivity. Qed.

(** * Further properties of the slider *)

Section SliderReadout.

Import DecibelSlider.

Variable s : DecibelSlider.t.
Hypothesis Hwf : wf s.

(** One position of the slider, in decibels. *)
Lemma quantum_pos : 0 < IZR (high_db s - low_db s) / IZR INT_MAX.
Proof.
  apply Rdiv_lt_0_compat; [exact (span_pos s Hwf)|].
  apply IZR_lt. done.
Qed.

Lemma int_to_db_position (db : R) (p : Z) :
  int_to_db s p - db
  = (IZR p - position s db) * (IZR (high_db s - low_db s) / IZR INT_MAX).
Proof.
  pose proof (span_pos s Hwf) as HD.
  unfold int_to_db, position, INT_MIN. rewrite Z.sub_0_r, mult_IZR.
  change (INT_MAX - 0)%Z with INT_MAX. change (IZR INT_MAX) with 1000000.
  field. lra.
Qed.

(** The slider read back after [set_decibel] of a value in range is
    within half a position of that value. *)
Lemma decibel_after_set_decibel (db : R) :
  IZR (low_db s) <= db <= IZR (high_db s) ->
  exists s' : DecibelSlider.t,
    set_decibel s (Fin db) = Ok s'
    /\ value s' = PyFloat.round_half_even (position s db)
    /\ wf s'
    /\ - (IZR (high_db s - low_db s) / IZR INT_MAX / 2)
       <= decibel s' - db
       <= IZR (high_db s - low_db s) / IZR INT_MAX / 2.
Proof.
  intros Hdb.
  destruct (set_decibel_fin s Hwf db) as (s' & Hset & Hval & Hlow & Hhigh & Hwf').
  pose proof (position_range s Hwf db Hdb) as Hpos.
  assert (Hst : stored s db = PyFloat.round_half_even (position s db)).
  { unfold stored. change (IZR INT_MIN) with 0.
    by rewrite Rmax_right, Rmin_right by lra. }
  rewrite Hst in Hval.
  exists s'. split; [exact Hset|]. split; [exact Hval|]. split; [exact Hwf'|].
  assert (Hd : decibel s' = int_to_db s (value s')).
  { unfold decibel, int_to_db. by rewrite Hlow, Hhigh. }
  rewrite Hd, int_to_db_position, Hval.
  pose proof (round_half_even_near (position s db)) as Herr.
  pose proof quantum_pos as Hq.
  set (q := IZR (high_db s - low_db s) / IZR INT_MAX) in *.
  set (e := IZR (PyFloat.round_half_even (position s db)) - position s db) in *.
  clearbody q e. nra.
Qed.

Lemma position_of_readout (p : Z) : position s (int_to_db s p) = IZR p.
Proof.
  pose proof (span_pos s Hwf) as HD.
  unfold int_to_db, position, INT_MIN. rewrite Z.sub_0_r, mult_IZR.
  change (INT_MAX - 0)%Z with INT_MAX. change (IZR INT_MAX) with 1000000.
  field. lra.
Qed.

Lemma setValue_same : setValue (value s) s = s.
Proof.
  destruct Hwf as (Hmin & Hmax & Hval & _).
  destruct s as [v mn mx lo hi inf]; simpl in *. subst mn mx.
  unfold setValue; simpl. f_equal. lia.
Qed.

Lemma set_decibel_of_readout : set_decibel s (Fin (decibel s)) = Ok s.
Proof.
  destruct (set_decibel_total s Hwf (Fin (decibel s)))
    as (v & s' & Hc & Hv & Hset & _).
  destruct Hwf as (_ & _ & Hval & _).
  unfold set_decibel. rewrite (clamped_fin s Hwf). cbn [bind PyFloat.round].
  unfold decibel. rewrite position_of_readout.
  change (IZR INT_MIN) with 0.
  rewrite Rmax_right by (apply IZR_le; unfold INT_MIN in Hval; lia).
  rewrite Rmin_right by (apply IZR_le; lia).
  by rewrite round_half_even_IZR, setValue_same.
Qed.

Lemma decibel_range : IZR (low_db s) <= decibel s <= IZR (high_db s).
Proof.
  destruct Hwf as (_ & _ & Hval & Hdb).
  pose proof (int_to_db_mono s Hwf _ _ (proj1 Hval)) as Hlo.
  pose proof (int_to_db_mono s Hwf _ _ (proj2 Hval)) as Hhi.
  assert (H0 : int_to_db s INT_MIN = IZR (low_db s)).
  { unfold int_to_db, INT_MIN. rewrite Z.sub_diag, Z.mul_0_l.
    unfold Rdiv. rewrite Rmult_0_l. ring. }
  assert (H1 : int_to_db s INT_MAX = IZR (high_db s)).
  { unfold int_to_db, INT_MIN. rewrite Z.sub_0_r, mult_IZR, minus_IZR.
    change (INT_MAX - 0)%Z with INT_MAX. change (IZR INT_MAX) with 1000000.
    field. }
  unfold decibel. lra.
Qed.

End SliderReadout.

Section Ratios.

Lemma Rpower_10_mono (a b : R) : a <= b -> Rpower 10 a <= Rpower 10 b.
Proof. intros H. apply Rle_Rpower; lra. Qed.

Lemma Rpower_10_log10 (x : R) : 0 < x -> Rpower 10 (ln x / ln 10) = x.
Proof.
  intros Hx. pose proof ln10_pos as H10. unfold Rpower.
  replace (ln x / ln 10 * ln 10) with (ln x) by (field; lra).
  by apply exp_ln.
Qed.

Lemma log10_Rpower_10 (y : R) : ln (Rpower 10 y) / ln 10 = y.
Proof.
  pose proof ln10_pos as H10. unfold Rpower. rewrite ln_exp. field. lra.
Qed.

Lemma Rpower_10_pos (y : R) : 0 < Rpower 10 y.
Proof. unfold Rpower. apply exp_pos. Qed.

End Ratios.

(** X1. A power ratio whose decibel value lies inside the range of the
    slider survives [set_power_ratio] followed by [power_ratio] up to
    the factor that half a slider position stands for. *)
Theorem power_ratio_round_trip (s : DecibelSlider.t) (pr : R) :
  DecibelSlider.wf s ->
  0 < pr ->
  IZR (DecibelSlider.low_db s) <= 10 * (ln pr / ln 10)
    <= IZR (DecibelSlider.high_db s) ->
  let q := IZR (DecibelSlider.high_db s - DecibelSlider.low_db s)
           / IZR DecibelSlider.INT_MAX in
  exists s' : DecibelSlider.t,
    DecibelSlider.set_power_ratio s (Fin pr) = Ok s'
    /\ Rabs (DecibelSlider.decibel s' - 10 * (ln pr / ln 10)) <= q / 2
    /\ pr * Rpower 10 (- (q / 20)) <= DecibelSlider.power_ratio s'
       <= pr * Rpower 10 (q / 20).
Proof.
  intros Hwf Hpr Hdb q.
  destruct (decibel_after_set_decibel s Hwf _ Hdb) as (s' & Hset & _ & _ & Hnear).
  fold q in Hnear.
  exists s'. split; [by rewrite (set_power_ratio_fin s pr Hpr)|].
  split; [apply Rabs_le; lra|].
  unfold DecibelSlider.power_ratio, DecibelSlider.db_to_power_ratio.
  pose proof (Rpower_10_log10 pr Hpr) as HP.
  split; rewrite <- HP at 1; rewrite <- Rpower_plus;
    apply Rpower_10_mono; lra.
Qed.

Lemma power_ratio_round_trip_witness :
  let s := DecibelSlider.init (-24) 24 in
  let q := IZR (24 - -24) / IZR 1000000 in
  exists s' : DecibelSlider.t,
    DecibelSlider.set_power_ratio s (Fin 1) = Ok s'
    /\ Rabs (DecibelSlider.decibel s' - 10 * (ln 1 / ln 10)) <= q / 2
    /\ 1 * Rpower 10 (- (q / 20)) <= DecibelSlider.power_ratio s'
       <= 1 * Rpower 10 (q / 20).
Proof.
  intros s q.
  apply (power_ratio_round_trip s 1).
  - unfold DecibelSlider.wf; simpl. repeat split; done.
  - lra.
  - rewrite ln_1. unfold Rdiv. rewrite Rmult_0_l, Rmult_0_r. simpl. lra.
Defined.

(** X2. The amplitude ratio of a slider is the square root of its power
    ratio: squared, it gives the power ratio. *)
Theorem amplitude_ratio_squared (s : DecibelSlider.t) :
  DecibelSlider.amplitude_ratio s * DecibelSlider.amplitude_ratio s
  = DecibelSlider.power_ratio s
  /\ 0 < DecibelSlider.amplitude_ratio s.
Proof.
  unfold DecibelSlider.amplitude_ratio, DecibelSlider.power_ratio,
    DecibelSlider.db_to_amplitude_ratio, DecibelSlider.db_to_power_ratio.
  split; [|apply Rpower_10_pos].
  rewrite <- Rpower_plus. f_equal. field.
Qed.

(** X3. Setting an amplitude ratio is setting its square as a power
    ratio. *)
Theorem set_amplitude_ratio_as_power (s : DecibelSlider.t) (ar : R) :
  0 < ar ->
  DecibelSlider.set_amplitude_ratio s (Fin ar)
  = DecibelSlider.set_power_ratio s (Fin (ar * ar)).
Proof.
  intros Har. pose proof ln10_pos as H10.
  assert (Hsq : 0 < ar * ar) by nra.
  unfold DecibelSlider.set_amplitude_ratio, DecibelSlider.set_power_ratio.
  rewrite (log10_fin ar Har), (log10_fin (ar * ar) Hsq). cbn [bind PyFloat.mul].
  f_equal. f_equal. rewrite ln_mult by exact Har. field. lra.
Qed.

Lemma set_amplitude_ratio_as_power_witness :
  DecibelSlider.set_amplitude_ratio (DecibelSlider.init (-60) 6) (Fin 2)
  = DecibelSlider.set_power_ratio (DecibelSlider.init (-60) 6) (Fin (2 * 2)).
Proof.
  apply (set_amplitude_ratio_as_power (DecibelSlider.init (-60) 6) 2). lra.
Defined.

(** X4. Writing the slider's own read-out back leaves the slider as it
    is, through decibels, power ratios and amplitude ratios alike. *)
Theorem set_readout_is_identity (s : DecibelSlider.t) :
  DecibelSlider.wf s ->
  DecibelSlider.set_decibel s (Fin (DecibelSlider.decibel s)) = Ok s
  /\ DecibelSlider.set_power_ratio s (Fin (DecibelSlider.power_ratio s)) = Ok s
  /\ DecibelSlider.set_amplitude_ratio s (Fin (DecibelSlider.amplitude_ratio s))
     = Ok s.
Proof.
  intros Hwf. pose proof (set_decibel_of_readout s Hwf) as Hdb.
  split; [exact Hdb|]. split.
  - unfold DecibelSlider.set_power_ratio, DecibelSlider.power_ratio,
      DecibelSlider.db_to_power_ratio.
    rewrite log10_fin by apply Rpower_10_pos. cbn [bind PyFloat.mul].
    rewrite log10_Rpower_10.
    replace (10 * (DecibelSlider.decibel s / 10)) with (DecibelSlider.decibel s)
      by field.
    exact Hdb.
  - unfold DecibelSlider.set_amplitude_ratio, DecibelSlider.amplitude_ratio,
      DecibelSlider.db_to_amplitude_ratio.
    rewrite log10_fin by apply Rpower_10_pos. cbn [bind PyFloat.mul].
    rewrite log10_Rpower_10.
    replace (20 * (DecibelSlider.decibel s / 20)) with (DecibelSlider.decibel s)
      by field.
    exact Hdb.
Qed.

Lemma set_readout_is_identity_witness :
  let s := DecibelSlider.setValue 250000 (DecibelSlider.init (-24) 24) in
  DecibelSlider.set_decibel s (Fin (DecibelSlider.decibel s)) = Ok s
  /\ DecibelSlider.set_power_ratio s (Fin (DecibelSlider.power_ratio s)) = Ok s
  /\ DecibelSlider.set_amplitude_ratio s (Fin (DecibelSlider.amplitude_ratio s))
     = Ok s.
Proof.
  intros s. apply (set_readout_is_identity s).
  unfold DecibelSlider.wf; simpl. repeat split; done.
Defined.

(** X5. The read-outs of a slider stay inside its range: the decibel
    value between [low_db] and [high_db], reached at the two ends of
    the slider, and the power ratio between the ratios of the two
    bounds. *)
Theorem readout_within_bounds (s : DecibelSlider.t) :
  DecibelSlider.wf s ->
  IZR (DecibelSlider.low_db s) <= DecibelSlider.decibel s
    <= IZR (DecibelSlider.high_db s)
  /\ (DecibelSlider.value s = DecibelSlider.INT_MIN ->
      DecibelSlider.decibel s = IZR (DecibelSlider.low_db s))
  /\ (DecibelSlider.value s = DecibelSlider.INT_MAX ->
      DecibelSlider.decibel s = IZR (DecibelSlider.high_db s))
  /\ DecibelSlider.db_to_power_ratio (IZR (DecibelSlider.low_db s))
     <= DecibelSlider.power_ratio s
     <= DecibelSlider.db_to_power_ratio (IZR (DecibelSlider.high_db s)).
Proof.
  intros Hwf. pose proof (decibel_range s Hwf) as Hr.
  split; [exact Hr|]. split; [|split].
  - intros Hv. unfold DecibelSlider.decibel, DecibelSlider.int_to_db.
    rewrite Hv, Z.sub_diag, Z.mul_0_l. unfold Rdiv. rewrite Rmult_0_l. ring.
  - intros Hv. unfold DecibelSlider.decibel, DecibelSlider.int_to_db.
    rewrite Hv. unfold DecibelSlider.INT_MIN.
    rewrite Z.sub_0_r, mult_IZR, minus_IZR.
    change (DecibelSlider.INT_MAX - 0)%Z with DecibelSlider.INT_MAX.
    change (IZR DecibelSlider.INT_MAX) with 1000000. field.
  - unfold DecibelSlider.power_ratio, DecibelSlider.db_to_power_ratio.
    split; apply Rpower_10_mono; lra.
Qed.

Lemma readout_within_bounds_witness :
  let s := DecibelSlider.init (-24) 24 in
  IZR (-24) <= DecibelSlider.decibel s <= IZR 24
  /\ (DecibelSlider.value s = 0%Z -> DecibelSlider.decibel s = IZR (-24))
  /\ (DecibelSlider.value s = 1000000%Z -> DecibelSlider.decibel s = IZR 24)
  /\ DecibelSlider.db_to_power_ratio (IZR (-24))
     <= DecibelSlider.power_ratio s
     <= DecibelSlider.db_to_power_ratio (IZR 24).
Proof.
  intros s. apply (readout_within_bounds s).
  unfold DecibelSlider.wf; simpl. repeat split; done.
Defined.

(** X6. A ratio that is zero or negative is rejected: [set_power_ratio]
    and [set_amplitude_ratio] raise [ValueError] from [math.log10], for
    every slider. *)
Theorem set_ratio_rejects_nonpositive (s : DecibelSlider.t) (x : R) :
  x <= 0 ->
  DecibelSlider.set_power_ratio s (Fin x) = Raise ValueError
  /\ DecibelSlider.set_amplitude_ratio s (Fin x) = Raise ValueError.
Proof.
  intros Hx.
  unfold DecibelSlider.set_power_ratio, DecibelSlider.set_amplitude_ratio,
    PyFloat.log10.
  destruct (Rlt_dec 0 x); [lra|]. done.
Qed.

Lemma set_ratio_rejects_nonpositive_witness :
  DecibelSlider.set_power_ratio (DecibelSlider.init (-24) 24) (Fin 0)
  = Raise ValueError
  /\ DecibelSlider.set_amplitude_ratio (DecibelSlider.init (-24) 24) (Fin 0)
     = Raise ValueError.
Proof.
  apply (set_ratio_rejects_nonpositive (DecibelSlider.init (-24) 24) 0). lra.
Defined.

(** X7. A slider built with [low_db = high_db] cannot be set and cannot
    be painted: [set_decibel] raises [ZeroDivisionError] for every
    argument, and so does [paintEvent] at its single tick. *)
Theorem degenerate_range_raises (s : DecibelSlider.t) :
  DecibelSlider.low_db s = DecibelSlider.high_db s ->
  (forall db : pyfloat,
     DecibelSlider.set_decibel s db = Raise ZeroDivisionError)
  /\ (forall (width y height : Z) (ascent : R),
        DecibelSlider.paintEvent s width y height ascent
        = Raise ZeroDivisionError).
Proof.
  intros Heq.
  assert (Hd : forall db, DecibelSlider.db_to_int s db = Raise ZeroDivisionError).
  { intros db. unfold DecibelSlider.db_to_int, PyFloat.py_div_int.
    by rewrite Heq, Z.sub_diag. }
  split.
  - intros db. unfold DecibelSlider.set_decibel, DecibelSlider.clamped.
    by rewrite Hd.
  - intros width y height ascent.
    unfold DecibelSlider.paintEvent, DecibelSlider.db_val_list, py_range.
    rewrite Heq.
    replace ((DecibelSlider.high_db s + 1 - DecibelSlider.high_db s + 6 - 1) / 6)%Z
      with 1%Z by (rewrite <- (Z.div_same 6) at 1 by lia; f_equal; lia).
    change (Z.to_nat 1) with 1%nat.
    cbn [seq map DecibelSlider.paint_ticks].
    unfold DecibelSlider.paint_tick, DecibelSlider.x_val. by rewrite Hd.
Qed.

Lemma degenerate_range_raises_witness :
  (forall db : pyfloat,
     DecibelSlider.set_decibel (DecibelSlider.init 6 6) db
     = Raise ZeroDivisionError)
  /\ (forall (width y height : Z) (ascent : R),
        DecibelSlider.paintEvent (DecibelSlider.init 6 6) width y height ascent
        = Raise ZeroDivisionError).
Proof.
  apply (degenerate_range_raises (DecibelSlider.init 6 6)). reflexivity.
Defined.

(** * The tick marks of the scale *)

Section Ticks.

Import DecibelSlider.

Lemma py_range_6_In (a b v : Z) :
  In v (py_range a b 6) <-> (a <= v < b)%Z /\ ((v - a) mod 6 = 0)%Z.
Proof.
  unfold py_range. rewrite in_map_iff. split.
  - intros (i & <- & Hi). apply in_seq in Hi. destruct Hi as [_ Hi].
    cbn [Nat.add] in Hi.
    assert (Hn : (Z.of_nat i < (b - a + 6 - 1) / 6)%Z) by lia.
    pose proof (Z.mul_div_le (b - a + 6 - 1) 6 ltac:(lia)) as Hd.
    split; [lia|].
    replace (a + Z.of_nat i * 6 - a)%Z with (Z.of_nat i * 6)%Z by lia.
    apply Z_mod_mult.
  - intros [[Hlo Hhi] Hmod].
    apply Z.mod_divide in Hmod; [|lia]. destruct Hmod as [k Hk].
    assert (Hk0 : (0 <= k)%Z) by lia.
    exists (Z.to_nat k). split; [lia|].
    apply in_seq. split; [lia|]. cbn [Nat.add].
    assert (Hdiv : (k + 1 <= (b - a + 6 - 1) / 6)%Z)
      by (apply Z.div_le_lower_bound; lia).
    lia.
Qed.

Lemma list_max_ge (l : list Z) (d : Z) :
  (d <= list_max l d)%Z /\ forall u, In u l -> (u <= list_max l d)%Z.
Proof.
  induction l as [|x l [IHd IHl]]; simpl; [split; [lia|tauto]|].
  split; [lia|]. intros u [<-|Hu]; [lia|]. specialize (IHl u Hu). lia.
Qed.

Lemma list_max_is_largest (l : list Z) (v : Z) :
  list_max l v = v <-> forall u, In u l -> (u <= v)%Z.
Proof.
  split.
  - intros H u Hu. destruct (list_max_ge l v) as [_ Hl].
    specialize (Hl u Hu). lia.
  - intros H. induction l as [|x l IH]; simpl; [done|].
    rewrite IH by (intros u Hu; apply H; by right).
    pose proof (H x (or_introl eq_refl)). lia.
Qed.

Variable s : DecibelSlider.t.
Hypothesis Hwf : wf s.

(** Where the tick at [val] is drawn. *)
Lemma x_val_fin (width val : Z) :
  x_val s width val
  = Ok (Fin (position s (IZR val) * IZR (width - 2 * range_padding)
             / IZR (INT_MAX - INT_MIN) + IZR range_padding)).
Proof.
  unfold x_val, PyFloat.of_int. rewrite (db_to_int_fin s Hwf).
  cbn [bind PyFloat.mul]. unfold PyFloat.div.
  rewrite Rsign_pos by (apply IZR_lt; done). done.
Qed.

Lemma x_val_formula (width val : Z) :
  position s (IZR val) * IZR (width - 2 * range_padding)
  / IZR (INT_MAX - INT_MIN) + IZR range_padding
  = IZR range_padding
    + IZR (val - low_db s) / IZR (high_db s - low_db s)
      * IZR (width - 2 * range_padding).
Proof.
  pose proof (span_pos s Hwf) as HD.
  unfold position. change (INT_MAX - INT_MIN)%Z with 1000000%Z.
  rewrite (minus_IZR val). field. lra.
Qed.

Lemma paint_tick_ok (width y height : Z) (ascent : R) (all : list Z) (val : Z) :
  lowest_as_inf s = false ->
  exists (xr : R) (text : draw),
    x_val s width val = Ok (Fin xr)
    /\ paint_tick s width y height ascent all val
       = Ok [text; DrawLine (PyFloat.round_half_even xr) (y - pointSize)
                     (PyFloat.round_half_even xr) (y + height)]
    /\ text
       = if Z.eqb val (list_max all val) then
           DrawTextRightAligned
             (PyFloat.round_half_even (xr + - font_x_offset + - 100))
             (PyFloat.round_half_even (IZR (y + pointSize) - ascent))
             100 (pointSize * 5) (Number val)
         else
           DrawText (PyFloat.round_half_even (xr + font_x_offset))
             (y + pointSize) (Number val).
Proof.
  intros Hinf. eexists _, _. split; [apply x_val_fin|].
  split; [|reflexivity].
  unfold paint_tick. rewrite x_val_fin, Hinf, andb_false_r. cbn [bind].
  destruct (Z.eqb val (list_max all val));
    cbn [bind PyFloat.round PyFloat.add PyFloat.sub PyFloat.opp]; reflexivity.
Qed.

Lemma paint_ticks_ok (width y height : Z) (ascent : R) (all vals : list Z) :
  lowest_as_inf s = false ->
  exists dss : list (list draw),
    paint_ticks s width y height ascent all vals = Ok (concat dss)
    /\ Forall2 (fun val ds => paint_tick s width y height ascent all val = Ok ds)
         vals dss.
Proof.
  intros Hinf. induction vals as [|val vals (dss & Hrun & Hall)].
  - exists []. split; [done|constructor].
  - destruct (paint_tick_ok width y height ascent all val Hinf)
      as (xr & text & _ & Htick & _).
    exists ([text; DrawLine (PyFloat.round_half_even xr) (y - pointSize)
                     (PyFloat.round_half_even xr) (y + height)] :: dss).
    split.
    + cbn [paint_ticks]. rewrite Htick, Hrun. reflexivity.
    + constructor; [exact Htick|exact Hall].
Qed.

End Ticks.

(** X8. The ticks of the scale are exactly the values [low_db],
    [low_db + 6], ... that do not exceed [high_db]; [high_db] itself is
    a tick only when the range is a multiple of 6. *)
Theorem tick_values (s : DecibelSlider.t) (v : Z) :
  In v (DecibelSlider.db_val_list s)
  <-> (DecibelSlider.low_db s <= v <= DecibelSlider.high_db s)%Z
      /\ ((v - DecibelSlider.low_db s) mod 6 = 0)%Z.
Proof.
  unfold DecibelSlider.db_val_list. rewrite py_range_6_In. lia.
Qed.

(** X9. For a contents rectangle at least as wide as the two paddings,
    every tick is drawn inside the padded width, at the fraction of it
    that the tick's value is of the decibel range: [low_db] on the left
    padding, [high_db] on the right one. *)
Theorem tick_positions (s : DecibelSlider.t) (width v : Z) :
  DecibelSlider.wf s ->
  (2 * DecibelSlider.range_padding <= width)%Z ->
  In v (DecibelSlider.db_val_list s) ->
  exists x : R,
    DecibelSlider.x_val s width v = Ok (Fin x)
    /\ x = IZR DecibelSlider.range_padding
           + IZR (v - DecibelSlider.low_db s)
             / IZR (DecibelSlider.high_db s - DecibelSlider.low_db s)
             * IZR (width - 2 * DecibelSlider.range_padding)
    /\ IZR DecibelSlider.range_padding <= x
       <= IZR (width - DecibelSlider.range_padding)
    /\ (v = DecibelSlider.low_db s -> x = IZR DecibelSlider.range_padding)
    /\ (v = DecibelSlider.high_db s ->
        x = IZR (width - DecibelSlider.range_padding)).
Proof.
  intros Hwf Hwidth Hin. unfold DecibelSlider.db_val_list in Hin.
  apply py_range_6_In in Hin as [[Hlo Hhi] _].
  pose proof (span_pos s Hwf) as HD.
  eexists. split; [apply (x_val_fin s Hwf)|].
  rewrite (x_val_formula s Hwf).
  set (f := IZR (v - DecibelSlider.low_db s)
            / IZR (DecibelSlider.high_db s - DecibelSlider.low_db s)).
  assert (Hf : 0 <= f <= 1).
  { unfold f. split.
    - apply Rmult_le_pos; [apply IZR_le; lia|].
      left. by apply Rinv_0_lt_compat.
    - apply (Rmult_le_reg_r (IZR (DecibelSlider.high_db s - DecibelSlider.low_db s)));
        [exact HD|].
      unfold Rdiv. rewrite Rmult_assoc, Rinv_l, Rmult_1_r, Rmult_1_l by lra.
      apply IZR_le. lia. }
  assert (Hw : 0 <= IZR (width - 2 * DecibelSlider.range_padding))
    by (apply IZR_le; lia).
  assert (Hpad : IZR (width - DecibelSlider.range_padding)
                 = IZR DecibelSlider.range_padding
                   + IZR (width - 2 * DecibelSlider.range_padding)).
  { rewrite <- plus_IZR. f_equal. lia. }
  split; [reflexivity|]. split; [rewrite Hpad; nra|]. split.
  - intros ->. unfold f. rewrite Z.sub_diag. unfold Rdiv. lra.
  - intros ->. rewrite Hpad. unfold f, Rdiv. rewrite Rinv_r by lra. lra.
Qed.

Lemma tick_positions_witness :
  let s := DecibelSlider.init (-24) 24 in
  exists x : R,
    DecibelSlider.x_val s 620 0 = Ok (Fin x)
    /\ x = IZR 10 + IZR (0 - -24) / IZR (24 - -24) * IZR (620 - 2 * 10)
    /\ IZR 10 <= x <= IZR (620 - 10)
    /\ (0%Z = (-24)%Z -> x = IZR 10)
    /\ (0%Z = 24%Z -> x = IZR (620 - 10)).
Proof.
  intros s. apply (tick_positions s 620 0).
  - unfold DecibelSlider.wf; simpl. repeat split; done.
  - done.
  - unfold DecibelSlider.db_val_list. apply py_range_6_In. simpl.
    split; [lia|reflexivity].
Defined.

(** X10. With [lowest_as_inf] clear, as [__init__] leaves it,
    [paintEvent] does not raise; it draws, for every tick in order, a
    text with the tick's value and then a vertical line at the rounded
    position of the tick, and the one text it right-aligns is that of
    the largest tick. *)
Theorem paintEvent_draws_ticks
    (s : DecibelSlider.t) (width y height : Z) (ascent : R) :
  DecibelSlider.wf s ->
  DecibelSlider.lowest_as_inf s = false ->
  exists dss : list (list DecibelSlider.draw),
    DecibelSlider.paintEvent s width y height ascent = Ok (concat dss)
    /\ Forall2
         (fun val ds =>
            exists (xr : R) (text : DecibelSlider.draw),
              DecibelSlider.x_val s width val = Ok (Fin xr)
              /\ ds = [text;
                       DecibelSlider.DrawLine
                         (PyFloat.round_half_even xr)
                         (y - DecibelSlider.pointSize)
                         (PyFloat.round_half_even xr) (y + height)]
              /\ ((forall u, In u (DecibelSlider.db_val_list s) -> (u <= val)%Z) ->
                  text = DecibelSlider.DrawTextRightAligned
                           (PyFloat.round_half_even
                              (xr + - DecibelSlider.font_x_offset + - 100))
                           (PyFloat.round_half_even
                              (IZR (y + DecibelSlider.pointSize) - ascent))
                           100 (DecibelSlider.pointSize * 5)
                           (DecibelSlider.Number val))
              /\ ((exists u, In u (DecibelSlider.db_val_list s) /\ (val < u)%Z) ->
                  text = DecibelSlider.DrawText
                           (PyFloat.round_half_even
                              (xr + DecibelSlider.font_x_offset))
                           (y + DecibelSlider.pointSize)
                           (DecibelSlider.Number val)))
         (DecibelSlider.db_val_list s) dss.
Proof.
  intros Hwf Hinf.
  destruct (paint_ticks_ok s Hwf width y height ascent
              (DecibelSlider.db_val_list s) (DecibelSlider.db_val_list s) Hinf)
    as (dss & Hrun & Hall).
  exists dss. split; [exact Hrun|].
  eapply Forall2_impl; [exact Hall|].
  intros val ds Htick. cbv beta in Htick.
  destruct (paint_tick_ok s Hwf width y height ascent
              (DecibelSlider.db_val_list s) val Hinf)
    as (xr & text & Hx & Htick' & Htext).
  rewrite Htick' in Htick. injection Htick as <-.
  exists xr, text. split; [exact Hx|]. split; [reflexivity|].
  split.
  - intros Hmax. apply list_max_is_largest in Hmax.
    by rewrite Hmax, Z.eqb_refl in Htext.
  - intros (u & Hu & Hlt).
    destruct (Z.eqb_spec val (DecibelSlider.list_max
                                (DecibelSlider.db_val_list s) val)) as [E|_];
      [|exact Htext].
    symmetry in E. rewrite list_max_is_largest in E.
    specialize (E u Hu). lia.
Qed.

Lemma paintEvent_draws_ticks_witness :
  let s := DecibelSlider.init (-24) 24 in
  exists dss : list (list DecibelSlider.draw),
    DecibelSlider.paintEvent s 620 0 30 8 = Ok (concat dss)
    /\ Forall2
         (fun val ds =>
            exists (xr : R) (text : DecibelSlider.draw),
              DecibelSlider.x_val s 620 val = Ok (Fin xr)
              /\ ds = [text;
                       DecibelSlider.DrawLine
                         (PyFloat.round_half_even xr)
                         (0 - DecibelSlider.pointSize)
                         (PyFloat.round_half_even xr) (0 + 30)]
              /\ ((forall u, In u (DecibelSlider.db_val_list s) -> (u <= val)%Z) ->
                  text = DecibelSlider.DrawTextRightAligned
                           (PyFloat.round_half_even
                              (xr + - DecibelSlider.font_x_offset + - 100))
                           (PyFloat.round_half_even
                              (IZR (0 + DecibelSlider.pointSize) - 8))
                           100 (DecibelSlider.pointSize * 5)
                           (DecibelSlider.Number val))
              /\ ((exists u, In u (DecibelSlider.db_val_list s) /\ (val < u)%Z) ->
                  text = DecibelSlider.DrawText
                           (PyFloat.round_half_even
                              (xr + DecibelSlider.font_x_offset))
                           (0 + DecibelSlider.pointSize)
                           (DecibelSlider.Number val)))
         (DecibelSlider.db_val_list s) dss.
Proof.
  intros s. apply (paintEvent_draws_ticks s 620 0 30 8).
  - unfold DecibelSlider.wf; simpl. repeat split; done.
  - reflexivity.
Defined.

(** * Further properties of the recorder *)

Section Histories.

Import MicrophoneRecorder.

Lemma dom_insert_here (h : heap) (l : nat) (v : list chunk) :
  l ∈ dom (<[l := v]> h).
Proof. apply elem_of_dom. rewrite lookup_insert_eq. by eexists. Qed.

Lemma dom_insert_there (h : heap) (l l' : nat) (v : list chunk) :
  l ∈ dom h -> l ∈ dom (<[l' := v]> h).
Proof.
  intros H. apply elem_of_dom. destruct (decide (l' = l)) as [->|Hne].
  - rewrite lookup_insert_eq. by eexists.
  - rewrite lookup_insert_ne by exact Hne. by apply elem_of_dom.
Qed.

Lemma append_deref_other (c : chunk) (h : heap) (r : t) (l : nat) :
  l ≠ frames r -> deref (append c h r) l = deref h l.
Proof. intros Hne. unfold append. by rewrite deref_insert_ne. Qed.

Lemma capture_frames_stopping (blocks : list chunk) (h : heap) (r : t) :
  stop r = true -> capture_frames blocks h r = appends (firstn 1 blocks) h r.
Proof. intros Hs. destruct blocks as [|d rest]; [done|]. simpl. by rewrite Hs. Qed.

(** A drained list is out of reach of everything that happens later. *)
Lemma run_keeps (es : list event) (h : heap) (r : t) (l : nat) :
  frames r ∈ dom h -> l ∈ dom h -> l ≠ frames r ->
  deref (run es h r).1.1 l = deref h l
  /\ frames (run es h r).1.2 ∈ dom (run es h r).1.1.
Proof.
  revert h r. induction es as [|[d|] es IH]; intros h r Hfr Hl Hne.
  - done.
  - cbn [run].
    destruct (IH (append d h r) r) as [H1 H2];
      [apply append_dom, Hfr|apply append_dom, Hl|exact Hne|].
    split; [|exact H2]. rewrite H1. by apply append_deref_other.
  - cbn [run]. destruct (get_frames_spec h r Hfr) as (l' & Hfresh & ->).
    destruct (run es (<[l':=[]]> h) (set_frames l' r)) as [[h2 r2] ls] eqn:E.
    assert (Hl' : l ≠ l') by (intros ->; contradiction).
    destruct (IH (<[l':=[]]> h) (set_frames l' r)) as [H1 H2].
    + apply dom_insert_here.
    + apply dom_insert_there, Hl.
    + exact Hl'.
    + rewrite E in H1, H2. cbn in *. split; [|exact H2].
      rewrite H1. by rewrite deref_insert_ne.
Qed.

Lemma run_conserves (es : list event) (h : heap) (r : t) :
  frames r ∈ dom h ->
  concat (map (deref (run es h r).1.1) (run es h r).2)
    ++ deref (run es h r).1.1 (frames (run es h r).1.2)
  = deref h (frames r) ++ captured es.
Proof.
  revert h r. induction es as [|[d|] es IH]; intros h r Hfr.
  - cbn. by rewrite app_nil_r.
  - cbn [run captured]. rewrite IH by (apply append_dom, Hfr).
    unfold append at 1. rewrite deref_insert_eq. by rewrite <- app_assoc.
  - cbn [run captured].
    destruct (get_frames_spec h r Hfr) as (l' & Hfresh & ->).
    assert (Hne : frames r ≠ l') by (intros E; rewrite E in Hfr; contradiction).
    assert (Hfr1 : frames (set_frames l' r) ∈ dom (<[l':=[]]> h))
      by apply dom_insert_here.
    assert (Hin : frames r ∈ dom (<[l':=[]]> h))
      by apply dom_insert_there, Hfr.
    pose proof (IH _ _ Hfr1) as Hrest.
    pose proof (proj1 (run_keeps es _ _ (frames r) Hfr1 Hin Hne)) as Hkeep.
    clear Hfr1.
    destruct (run es (<[l':=[]]> h) (set_frames l' r)) as [[h2 r2] ls].
    cbn in *. rewrite <- app_assoc, Hrest, Hkeep.
    by rewrite deref_insert_eq, deref_insert_ne.
Qed.

End Histories.

(** X11. The capture loop appends the block it has recorded before it
    looks at [stop]: with [stop] clear it appends every block, with
    [stop] set (as [close] sets it) it still appends one block and then
    leaves; no other list object is touched. *)
Theorem capture_frames_until_stop
    (blocks : list chunk) (h : heap) (r : MicrophoneRecorder.t) :
  MicrophoneRecorder.deref (MicrophoneRecorder.capture_frames blocks h r)
    (MicrophoneRecorder.frames r)
  = MicrophoneRecorder.deref h (MicrophoneRecorder.frames r)
    ++ (if MicrophoneRecorder.stop r then firstn 1 blocks else blocks)
  /\ (forall l : nat,
        l ≠ MicrophoneRecorder.frames r ->
        MicrophoneRecorder.deref (MicrophoneRecorder.capture_frames blocks h r) l
        = MicrophoneRecorder.deref h l)
  /\ MicrophoneRecorder.deref
       (MicrophoneRecorder.capture_frames blocks h
          (MicrophoneRecorder.set_stop true r))
       (MicrophoneRecorder.frames r)
     = MicrophoneRecorder.deref h (MicrophoneRecorder.frames r)
       ++ firstn 1 blocks.
Proof.
  assert (Hrun : forall r0 : MicrophoneRecorder.t,
            MicrophoneRecorder.capture_frames blocks h r0
            = MicrophoneRecorder.appends
                (if MicrophoneRecorder.stop r0 then firstn 1 blocks else blocks)
                h r0).
  { intros r0. destruct (MicrophoneRecorder.stop r0) eqn:Hs.
    - by apply capture_frames_stopping.
    - by apply capture_frames_running. }
  split; [|split].
  - by rewrite Hrun, appends_deref.
  - intros l Hl. by rewrite Hrun, appends_deref_other.
  - rewrite Hrun. cbn [MicrophoneRecorder.stop MicrophoneRecorder.set_stop].
    change (MicrophoneRecorder.frames r)
      with (MicrophoneRecorder.frames (MicrophoneRecorder.set_stop true r)) at 1.
    by rewrite appends_deref.
Qed.

(** X12. Whatever the order of appends and drains, nothing is lost and
    nothing is handed out twice: the lists the drains returned, one
    after the other, followed by what is still buffered, are the blocks
    that were captured, in order. *)
Theorem drains_conserve_chunks
    (es : list MicrophoneRecorder.event) (h : heap) (r : MicrophoneRecorder.t) :
  h !! MicrophoneRecorder.frames r = Some [] ->
  let st := MicrophoneRecorder.run es h r in
  concat (map (MicrophoneRecorder.deref st.1.1) st.2)
    ++ MicrophoneRecorder.deref st.1.1 (MicrophoneRecorder.frames st.1.2)
  = MicrophoneRecorder.captured es.
Proof.
  intros Hempty st. unfold st.
  rewrite run_conserves by (apply elem_of_dom; by exists []).
  unfold MicrophoneRecorder.deref at 1. by rewrite Hempty.
Qed.

Lemma drains_conserve_chunks_witness :
  let s0 := MicrophoneRecorder.init ∅ 4000 1024 in
  let es := [MicrophoneRecorder.Capture [1; 2]; MicrophoneRecorder.GetFrames;
             MicrophoneRecorder.Capture [3]; MicrophoneRecorder.Capture [4];
             MicrophoneRecorder.GetFrames; MicrophoneRecorder.GetFrames;
             MicrophoneRecorder.Capture [5]] in
  let st := MicrophoneRecorder.run es s0.1 s0.2 in
  concat (map (MicrophoneRecorder.deref st.1.1) st.2)
    ++ MicrophoneRecorder.deref st.1.1 (MicrophoneRecorder.frames st.1.2)
  = MicrophoneRecorder.captured es.
Proof.
  intros s0 es.
  apply (drains_conserve_chunks es s0.1 s0.2).
  apply init_buffer_empty.
Defined.

(** X13. A recorder can be started once: after a successful [start] a
    second [start] raises [RuntimeError].  [close] then sets [stop] and
    waits for the capture loop.  If the loop is waiting in [rec.record]
    and no block ever arrives, [close] never returns.  If a block
    arrives, [close] returns after the loop has appended that one block
    and nothing else; if the loop was about to test [stop], [close]
    returns with the buffer as it is.  Once [close] has returned, the
    thread is stopped, [stop] is set, a repeated [close] returns at
    once and changes nothing, and the recorder cannot be started
    again. *)
Theorem start_once_close_repeatable (r r1 : MicrophoneRecorder.t) :
  MicrophoneRecorder.start r = Ok r1 ->
  let r2 := MicrophoneRecorder.set_thread Thread.Stopped
              (MicrophoneRecorder.set_stop true r1) in
  MicrophoneRecorder.start r1 = Raise RuntimeError
  /\ (forall h : heap,
        MicrophoneRecorder.close MicrophoneRecorder.InRecord [] h r1 = Blocks)
  /\ (forall (h : heap) (data : chunk) (rest : list chunk),
        MicrophoneRecorder.close MicrophoneRecorder.InRecord (data :: rest) h r1
        = Returns (MicrophoneRecorder.append data h r1, r2))
  /\ (forall (h : heap) (blocks : list chunk),
        MicrophoneRecorder.close MicrophoneRecorder.AtStopTest blocks h r1
        = Returns (h, r2))
  /\ (forall (p : MicrophoneRecorder.loop_position) (blocks : list chunk) (h : heap),
        MicrophoneRecorder.close p blocks h r2 = Returns (h, r2))
  /\ MicrophoneRecorder.start r2 = Raise RuntimeError
  /\ MicrophoneRecorder.stop r2 = true
  /\ MicrophoneRecorder.thread r2 = Thread.Stopped
  /\ MicrophoneRecorder.frames r2 = MicrophoneRecorder.frames r.
Proof.
  unfold MicrophoneRecorder.start.
  destruct r as [rate cs st fr th]. destruct th; cbn; intros [= <-]; cbn.
  split; [reflexivity|]. split; [reflexivity|]. split; [reflexivity|].
  split; [reflexivity|]. split; [reflexivity|]. done.
Qed.

Lemma start_once_close_repeatable_witness :
  let r := (MicrophoneRecorder.init ∅ 48000 8192).2 in
  let r1 := MicrophoneRecorder.set_thread Thread.Started r in
  let r2 := MicrophoneRecorder.set_thread Thread.Stopped
              (MicrophoneRecorder.set_stop true r1) in
  MicrophoneRecorder.start r1 = Raise RuntimeError
  /\ (forall h : heap,
        MicrophoneRecorder.close MicrophoneRecorder.InRecord [] h r1 = Blocks)
  /\ (forall (h : heap) (data : chunk) (rest : list chunk),
        MicrophoneRecorder.close MicrophoneRecorder.InRecord (data :: rest) h r1
        = Returns (MicrophoneRecorder.append data h r1, r2))
  /\ (forall (h : heap) (blocks : list chunk),
        MicrophoneRecorder.close MicrophoneRecorder.AtStopTest blocks h r1
        = Returns (h, r2))
  /\ (forall (p : MicrophoneRecorder.loop_position) (blocks : list chunk) (h : heap),
        MicrophoneRecorder.close p blocks h r2 = Returns (h, r2))
  /\ MicrophoneRecorder.start r2 = Raise RuntimeError
  /\ MicrophoneRecorder.stop r2 = true
  /\ MicrophoneRecorder.thread r2 = Thread.Stopped
  /\ MicrophoneRecorder.frames r2 = MicrophoneRecorder.frames r.
Proof.
  intros r r1. apply (start_once_close_repeatable r r1). reflexivity.
Defined.

(** * Further properties of the tick *)

Section TickInvariant.

Import LiveFFTWidget.

(** The recorder a drain leaves differs from the old one in its buffer
    reference only. *)
Lemma handleNewData_cases_mic (h : heap) (w : t) :
  exists (h1 : heap) (l : nat),
    MicrophoneRecorder.deref h1 l = []
    /\ handleNewData h w =
       match last (pending h w) with
       | None => Ok (h1, set_mic (MicrophoneRecorder.set_frames l (mic w)) w)
       | Some current_frame =>
           process h1 (MicrophoneRecorder.set_frames l (mic w)) w current_frame
       end.
Proof.
  exists (<[fresh (dom h):=[]]> h), (fresh (dom h)).
  split; [apply deref_insert_eq|].
  destruct (get_frames_deref h (mic w)) as [Hold _].
  unfold handleNewData, pending.
  unfold MicrophoneRecorder.get_frames, MicrophoneRecorder.new_list in Hold |- *.
  cbv beta iota zeta in Hold |- *. cbn [fst snd] in Hold. rewrite Hold.
  destruct (last _) as [c|]; [|reflexivity].
  unfold process.
  destruct (filtered_spectrum w c) as [fft|e]; [|reflexivity]; cbn [bind].
  destruct (resolve_gain w fft) as [[g s]|e]; reflexivity.
Qed.

Lemma amax_embed_nonneg (zs : list (R * R)) :
  zs <> [] ->
  exists M : R,
    Numpy.amax (map Numpy.abs (map Numpy.embed zs)) = Ok (Fin M) /\ 0 <= M.
Proof.
  destruct zs as [|z zs]; [done|]. intros _.
  eexists. split; [apply amax_embed|].
  destruct (fold_Rmax_ge (map Numpy.modulus zs) (Numpy.modulus z)) as [H _].
  pose proof (modulus_nonneg z). lra.
Qed.

(** With a well-formed slider the gain of a tick is always resolved,
    and the slider stays well formed. *)
Lemma resolve_gain_total (w : t) (zs : list (R * R)) :
  DecibelSlider.wf (fixedGainSlider w) ->
  zs <> [] ->
  exists (g : pyfloat) (s' : DecibelSlider.t),
    resolve_gain w (map Numpy.embed zs) = Ok (g, s') /\ DecibelSlider.wf s'.
Proof.
  intros Hwf Hzs. unfold resolve_gain.
  destruct (autoGainCheckBox w); [|by eexists _, _].
  destruct (amax_embed_nonneg zs Hzs) as (M & -> & HM). cbn [bind].
  destruct HM as [HM|<-].
  - destruct (Rlt_dec (1 / M) float32_overflow) as [Hfit|Hover].
    + rewrite (auto_gain_positive M HM Hfit).
      assert (Hg : 0 < sample_style_2 / M)
        by (unfold sample_style_2; apply Rdiv_lt_0_compat; lra).
      rewrite (set_power_ratio_fin _ _ Hg).
      destruct (set_decibel_fin _ Hwf (10 * (ln (sample_style_2 / M) / ln 10)))
        as (s' & -> & _ & _ & _ & Hwf').
      by eexists _, _.
    + rewrite (auto_gain_overflow M HM) by lra.
      destruct (set_power_ratio_inf _ Hwf) as (s' & -> & _ & Hwf').
      by eexists _, _.
  - rewrite auto_gain_zero.
    destruct (set_power_ratio_inf _ Hwf) as (s' & -> & _ & Hwf').
    by eexists _, _.
Qed.

End TickInvariant.

(** C5. A tick drains the buffer.  On an empty drain nothing but the
    recorder's buffer reference changes.  Otherwise the last chunk [c]
    alone is processed.  If [c] is empty the tick raises [ValueError].
    If [c] is not empty and the slider is well formed the tick returns:
    the top line is [c] over the time axis, the bottom line is the
    magnitudes of the gain times the cutoff-filtered [rfft] of [c] over
    the frequency axis, the slider is the one the gain computation
    leaves, and the plot is redrawn once.  Two buffers that end in the
    same chunk give the same lines and slider, whatever the earlier
    chunks are. *)
Theorem handleNewData_last_chunk_only (h : heap) (w : LiveFFTWidget.t) :
  (forall h' w', LiveFFTWidget.handleNewData h w = Ok (h', w') ->
     LiveFFTWidget.pending h' w' = [])
  /\ (LiveFFTWidget.pending h w = [] ->
      exists h' mic',
        LiveFFTWidget.handleNewData h w = Ok (h', LiveFFTWidget.set_mic mic' w))
  /\ (forall (earlier : list chunk) (c : chunk),
        LiveFFTWidget.pending h w = earlier ++ [c] ->
        (c = [] -> LiveFFTWidget.handleNewData h w = Raise ValueError)
        /\ (c <> [] ->
            DecibelSlider.wf (LiveFFTWidget.fixedGainSlider w) ->
            exists (spectrum : list Numpy.complex) (gain : pyfloat)
                   (s' : DecibelSlider.t) (h' : heap) (w' : LiveFFTWidget.t),
              let fft_frame :=
                Numpy.assign_zero_upto (LiveFFTWidget.cutoffSlider w) spectrum in
              Numpy.rfft c = Ok spectrum
              /\ LiveFFTWidget.resolve_gain w fft_frame = Ok (gain, s')
              /\ LiveFFTWidget.handleNewData h w = Ok (h', w')
              /\ LiveFFTWidget.line_top w' = (LiveFFTWidget.time_vect w, c)
              /\ LiveFFTWidget.line_bottom w'
                 = (LiveFFTWidget.freq_vect w,
                    map Numpy.abs (LiveFFTWidget.scale gain fft_frame))
              /\ LiveFFTWidget.fixedGainSlider w' = s'
              /\ LiveFFTWidget.draws w' = S (LiveFFTWidget.draws w))
        /\ (forall (h2 : heap) (earlier2 : list chunk),
              LiveFFTWidget.pending h2 w = earlier2 ++ [c] ->
              match LiveFFTWidget.handleNewData h w,
                    LiveFFTWidget.handleNewData h2 w with
              | Ok (_, w1), Ok (_, w2) =>
                  LiveFFTWidget.line_top w1 = (LiveFFTWidget.time_vect w, c)
                  /\ LiveFFTWidget.line_top w2 = LiveFFTWidget.line_top w1
                  /\ LiveFFTWidget.line_bottom w2 = LiveFFTWidget.line_bottom w1
                  /\ LiveFFTWidget.fixedGainSlider w2
                     = LiveFFTWidget.fixedGainSlider w1
              | Raise e1, Raise e2 => e1 = e2
              | _, _ => False
              end)).
Proof.
  destruct (handleNewData_cases h w) as (h1 & mic1 & Hnew & Hrun).
  split; [|split].
  - intros h' w' Hok. rewrite Hrun in Hok.
    destruct (last _) as [c|].
    + apply process_drained in Hok as [-> Hm].
      unfold LiveFFTWidget.pending. by rewrite Hm.
    + by injection Hok as <- <-.
  - intros Hnil. rewrite Hrun, Hnil. by exists h1, mic1.
  - intros earlier c He. rewrite Hrun, He, last_snoc.
    split; [|split].
    + by intros ->.
    + intros Hc Hwf.
      destruct (LiveFFTWidget.filtered_spectrum w c) as [fft|e] eqn:Hf;
        [|unfold LiveFFTWidget.filtered_spectrum in Hf;
          rewrite rfft_nonempty in Hf by done; discriminate].
      destruct (filtered_spectrum_embed _ _ _ Hf) as (zs & Hzs & Hne).
      destruct (resolve_gain_total w zs Hwf Hne) as (g & s' & Hres & _).
      rewrite <- Hzs in Hres.
      unfold LiveFFTWidget.process. rewrite Hf. cbn [bind]. rewrite Hres.
      cbn [bind fst snd].
      unfold LiveFFTWidget.filtered_spectrum in Hf.
      destruct (Numpy.rfft c) as [spectrum|e]; [|discriminate].
      cbn [bind] in Hf. injection Hf as Hf.
      exists spectrum, g, s'. eexists _, _. cbv zeta. rewrite Hf.
      split; [reflexivity|]. split; [exact Hres|].
      split; [reflexivity|]. done.
    + intros h2 earlier2 He2.
      destruct (handleNewData_cases h2 w) as (h3 & mic3 & _ & Hrun2).
      rewrite Hrun2, He2, !last_snoc.
      unfold LiveFFTWidget.process.
      destruct (LiveFFTWidget.filtered_spectrum w c) as [fft|e]; [|done]; simpl.
      destruct (LiveFFTWidget.resolve_gain w fft) as [gs|e]; done.
Qed.

Lemma handleNewData_last_chunk_only_witness :
  let st := LiveFFTWidget.init_state ∅ 8 48000 in
  let c := 1 :: repeat 0 7 in
  let h := MicrophoneRecorder.append c st.1 (LiveFFTWidget.mic st.2) in
  let h2 := MicrophoneRecorder.appends [repeat 0 8; c] st.1
              (LiveFFTWidget.mic st.2) in
  LiveFFTWidget.pending h st.2 = [] ++ [c]
  /\ LiveFFTWidget.pending h2 st.2 = [repeat 0 8] ++ [c]
  /\ (exists (spectrum : list Numpy.complex) (gain : pyfloat)
             (s' : DecibelSlider.t) (h' : heap) (w' : LiveFFTWidget.t),
        let fft_frame :=
          Numpy.assign_zero_upto (LiveFFTWidget.cutoffSlider st.2) spectrum in
        Numpy.rfft c = Ok spectrum
        /\ LiveFFTWidget.resolve_gain st.2 fft_frame = Ok (gain, s')
        /\ LiveFFTWidget.handleNewData h st.2 = Ok (h', w')
        /\ LiveFFTWidget.line_top w' = (LiveFFTWidget.time_vect st.2, c)
        /\ LiveFFTWidget.line_bottom w'
           = (LiveFFTWidget.freq_vect st.2,
              map Numpy.abs (LiveFFTWidget.scale gain fft_frame))
        /\ LiveFFTWidget.fixedGainSlider w' = s'
        /\ LiveFFTWidget.draws w' = S (LiveFFTWidget.draws st.2))
  /\ match LiveFFTWidget.handleNewData h st.2,
           LiveFFTWidget.handleNewData h2 st.2 with
     | Ok (_, w1), Ok (_, w2) =>
         LiveFFTWidget.line_top w1 = (LiveFFTWidget.time_vect st.2, c)
         /\ LiveFFTWidget.line_top w2 = LiveFFTWidget.line_top w1
         /\ LiveFFTWidget.line_bottom w2 = LiveFFTWidget.line_bottom w1
         /\ LiveFFTWidget.fixedGainSlider w2 = LiveFFTWidget.fixedGainSlider w1
     | Raise e1, Raise e2 => e1 = e2
     | _, _ => False
     end.
Proof.
  intros st c h h2.
  assert (H1 : LiveFFTWidget.pending h st.2 = [] ++ [c])
    by apply init_state_pending.
  assert (H2 : LiveFFTWidget.pending h2 st.2 = [repeat 0 8] ++ [c]).
  { unfold LiveFFTWidget.pending, h2. rewrite appends_deref.
    cbn. by rewrite deref_insert_eq. }
  split; [exact H1|]. split; [exact H2|].
  destruct (handleNewData_last_chunk_only h st.2) as (_ & _ & Hlast).
  destruct (Hlast [] c H1) as (_ & Hruns & Hsame).
  split.
  - apply Hruns; [discriminate|apply init_state_wf].
  - exact (Hsame h2 [repeat 0 8] H2).
Defined.

(** X14. With a well-formed slider a tick raises only when the newest
    chunk is empty, which [rfft] rejects.  Otherwise it returns, the
    slider is well formed again, the auto-gain box, the cutoff, both
    axes and the recorder's settings are as before, and the plot was
    redrawn once if and only if the drain was not empty. *)
Theorem handleNewData_keeps_invariant (h : heap) (w : LiveFFTWidget.t) :
  DecibelSlider.wf (LiveFFTWidget.fixedGainSlider w) ->
  match LiveFFTWidget.handleNewData h w with
  | Ok (_, w') =>
      DecibelSlider.wf (LiveFFTWidget.fixedGainSlider w')
      /\ LiveFFTWidget.autoGainCheckBox w' = LiveFFTWidget.autoGainCheckBox w
      /\ LiveFFTWidget.cutoffSlider w' = LiveFFTWidget.cutoffSlider w
      /\ LiveFFTWidget.freq_vect w' = LiveFFTWidget.freq_vect w
      /\ LiveFFTWidget.time_vect w' = LiveFFTWidget.time_vect w
      /\ MicrophoneRecorder.stop (LiveFFTWidget.mic w')
         = MicrophoneRecorder.stop (LiveFFTWidget.mic w)
      /\ MicrophoneRecorder.thread (LiveFFTWidget.mic w')
         = MicrophoneRecorder.thread (LiveFFTWidget.mic w)
      /\ LiveFFTWidget.draws w'
         = (LiveFFTWidget.draws w
            + match LiveFFTWidget.pending h w with [] => 0 | _ => 1 end)%nat
  | Raise e =>
      e = ValueError /\ last (LiveFFTWidget.pending h w) = Some []
  end.
Proof.
  intros Hwf.
  destruct (handleNewData_cases_mic h w) as (h1 & l & _ & ->).
  destruct (LiveFFTWidget.pending h w) as [|c0 cs] eqn:Hp using rev_ind.
  - cbn. split; [exact Hwf|]. do 6 (split; [reflexivity|]). lia.
  - clear IHcs. rewrite last_snoc.
    assert (Hcount : match cs ++ [c0] with [] => 0%nat | _ => 1%nat end = 1%nat)
      by (destruct cs; done).
    rewrite Hcount. unfold LiveFFTWidget.process.
    destruct c0 as [|x c0]; [done|].
    destruct (LiveFFTWidget.filtered_spectrum w (x :: c0)) as [fft|e] eqn:Hf;
      [|unfold LiveFFTWidget.filtered_spectrum in Hf;
        rewrite rfft_nonempty in Hf by done; discriminate].
    destruct (filtered_spectrum_embed _ _ _ Hf) as (zs & -> & Hzs).
    cbn [bind].
    destruct (resolve_gain_total w zs Hwf Hzs) as (g & s' & -> & Hwf').
    cbn. split; [exact Hwf'|]. do 6 (split; [reflexivity|]). lia.
Qed.

Lemma handleNewData_keeps_invariant_witness :
  let st := LiveFFTWidget.init_state ∅ 8 48000 in
  let h := MicrophoneRecorder.append (repeat 0 8) st.1 (LiveFFTWidget.mic st.2) in
  match LiveFFTWidget.handleNewData h st.2 with
  | Ok (_, w') =>
      DecibelSlider.wf (LiveFFTWidget.fixedGainSlider w')
      /\ LiveFFTWidget.autoGainCheckBox w' = LiveFFTWidget.autoGainCheckBox st.2
      /\ LiveFFTWidget.cutoffSlider w' = LiveFFTWidget.cutoffSlider st.2
      /\ LiveFFTWidget.freq_vect w' = LiveFFTWidget.freq_vect st.2
      /\ LiveFFTWidget.time_vect w' = LiveFFTWidget.time_vect st.2
      /\ MicrophoneRecorder.stop (LiveFFTWidget.mic w')
         = MicrophoneRecorder.stop (LiveFFTWidget.mic st.2)
      /\ MicrophoneRecorder.thread (LiveFFTWidget.mic w')
         = MicrophoneRecorder.thread (LiveFFTWidget.mic st.2)
      /\ LiveFFTWidget.draws w'
         = (LiveFFTWidget.draws st.2
            + match LiveFFTWidget.pending h st.2 with [] => 0 | _ => 1 end)%nat
  | Raise e =>
      e = ValueError /\ last (LiveFFTWidget.pending h st.2) = Some []
  end.
Proof.
  intros st h. apply (handleNewData_keeps_invariant h st.2).
  apply init_state_wf.
Defined.

(** X15. A tick that returned has emptied the buffer, so a second tick
    right after it, with no block captured in between, changes nothing
    that is shown: lines, slider and redraw count stay. *)
Theorem second_tick_changes_nothing
    (h h1 : heap) (w w1 : LiveFFTWidget.t) :
  LiveFFTWidget.handleNewData h w = Ok (h1, w1) ->
  exists (h2 : heap) (mic2 : MicrophoneRecorder.t),
    LiveFFTWidget.handleNewData h1 w1 = Ok (h2, LiveFFTWidget.set_mic mic2 w1).
Proof.
  intros Hfirst.
  assert (Hdrained : LiveFFTWidget.pending h1 w1 = []).
  { destruct (handleNewData_cases h w) as (h' & mic' & Hnew & Hrun).
    rewrite Hrun in Hfirst. destruct (last _) as [c|].
    - apply process_drained in Hfirst as [-> Hm].
      unfold LiveFFTWidget.pending. by rewrite Hm.
    - by injection Hfirst as <- <-. }
  destruct (handleNewData_cases h1 w1) as (h2 & mic2 & _ & Hrun).
  rewrite Hdrained in Hrun. by exists h2, mic2.
Qed.

Lemma second_tick_changes_nothing_witness :
  let st := LiveFFTWidget.init_state ∅ 8 48000 in
  let h1 := (MicrophoneRecorder.get_frames st.1 (LiveFFTWidget.mic st.2)).1.2 in
  let w1 := LiveFFTWidget.set_mic
              (MicrophoneRecorder.get_frames st.1 (LiveFFTWidget.mic st.2)).2
              st.2 in
  exists (h2 : heap) (mic2 : MicrophoneRecorder.t),
    LiveFFTWidget.handleNewData h1 w1 = Ok (h2, LiveFFTWidget.set_mic mic2 w1).
Proof.
  intros st h1 w1.
  apply (second_tick_changes_nothing st.1 h1 st.2 w1).
  reflexivity.
Defined.

(** * The axes and the plotted data *)

Section Axes.

Lemma lookup_map_seq {A : Type} (f : nat -> A) (start n i : nat) :
  (i < n)%nat -> map f (seq start n) !! i = Some (f (start + i)%nat).
Proof.
  revert start i. induction n as [|n IH]; intros start i Hi; [lia|].
  destruct i as [|i]; cbn [seq map].
  - by rewrite Nat.add_0_r.
  - change ((f start :: map f (seq (S start) n)) !! S i)
      with (map f (seq (S start) n) !! i).
    rewrite IH by lia. f_equal. f_equal. lia.
Qed.

Lemma make_freq_vect_length (chunksize rate : Z) :
  length (LiveFFTWidget.make_freq_vect chunksize rate)
  = Z.to_nat (chunksize / 2 + 1).
Proof.
  unfold LiveFFTWidget.make_freq_vect, Numpy.rfftfreq.
  by rewrite length_map, length_seq.
Qed.

Lemma make_time_vect_length (chunksize rate : Z) :
  length (LiveFFTWidget.make_time_vect chunksize rate) = Z.to_nat chunksize.
Proof.
  unfold LiveFFTWidget.make_time_vect. by rewrite length_map, length_seq.
Qed.

Lemma half_plus_one (chunksize : Z) :
  (0 <= chunksize)%Z ->
  Z.to_nat (chunksize / 2 + 1) = (Z.to_nat chunksize / 2 + 1)%nat.
Proof.
  intros H. rewrite Z2Nat.inj_add by (try apply Z.div_pos; lia).
  rewrite Z2Nat.inj_div by lia. reflexivity.
Qed.

End Axes.

(** X16. For a positive chunk size and rate the frequency axis has
    [chunksize // 2 + 1] entries, entry [i] being [i * rate / chunksize],
    which is also the number the cutoff label shows for a cutoff of [i]
    bins; the time axis has [chunksize] entries, entry [i] being
    [i / rate * 1000]. *)
Theorem axes_formulas (chunksize rate : Z) :
  (0 < chunksize)%Z ->
  (0 < rate)%Z ->
  length (LiveFFTWidget.make_freq_vect chunksize rate)
  = (Z.to_nat chunksize / 2 + 1)%nat
  /\ (forall i : nat,
        (i <= Z.to_nat chunksize / 2)%nat ->
        LiveFFTWidget.make_freq_vect chunksize rate !! i
        = Some (INR i * IZR rate / IZR chunksize)
        /\ LiveFFTWidget.cutoffSliderChanged chunksize rate i
           = INR i * IZR rate / IZR chunksize)
  /\ length (LiveFFTWidget.make_time_vect chunksize rate) = Z.to_nat chunksize
  /\ (forall i : nat,
        (i < Z.to_nat chunksize)%nat ->
        LiveFFTWidget.make_time_vect chunksize rate !! i
        = Some (INR i / IZR rate * 1000)).
Proof.
  intros Hcs Hrate.
  assert (Hc : 0 < IZR chunksize) by (apply IZR_lt; lia).
  assert (Hr : 0 < IZR rate) by (apply IZR_lt; lia).
  split; [by rewrite make_freq_vect_length, half_plus_one by lia|].
  split; [|split; [apply make_time_vect_length|]].
  - intros i Hi. split; [|reflexivity].
    unfold LiveFFTWidget.make_freq_vect, Numpy.rfftfreq.
    rewrite lookup_map_seq by (rewrite half_plus_one by lia; lia).
    cbn [Nat.add]. f_equal. field. lra.
  - intros i Hi. unfold LiveFFTWidget.make_time_vect.
    by rewrite lookup_map_seq by lia.
Qed.

Lemma axes_formulas_witness :
  length (LiveFFTWidget.make_freq_vect 8192 48000)
  = (Z.to_nat 8192 / 2 + 1)%nat
  /\ (forall i : nat,
        (i <= Z.to_nat 8192 / 2)%nat ->
        LiveFFTWidget.make_freq_vect 8192 48000 !! i
        = Some (INR i * IZR 48000 / IZR 8192)
        /\ LiveFFTWidget.cutoffSliderChanged 8192 48000 i
           = INR i * IZR 48000 / IZR 8192)
  /\ length (LiveFFTWidget.make_time_vect 8192 48000) = Z.to_nat 8192
  /\ (forall i : nat,
        (i < Z.to_nat 8192)%nat ->
        LiveFFTWidget.make_time_vect 8192 48000 !! i
        = Some (INR i / IZR 48000 * 1000)).
Proof. apply (axes_formulas 8192 48000); lia. Defined.

(** X17. When the newest chunk has [chunksize] samples, the data a tick
    hands to the two lines have the lengths of their axes: [chunksize]
    for the time line and [chunksize // 2 + 1] for the spectrum. *)
Theorem plotted_data_fit_axes
    (h : heap) (w : LiveFFTWidget.t) (chunksize rate : Z)
    (earlier : list chunk) (c : chunk) :
  (0 < chunksize)%Z ->
  LiveFFTWidget.time_vect w = LiveFFTWidget.make_time_vect chunksize rate ->
  LiveFFTWidget.freq_vect w = LiveFFTWidget.make_freq_vect chunksize rate ->
  DecibelSlider.wf (LiveFFTWidget.fixedGainSlider w) ->
  LiveFFTWidget.pending h w = earlier ++ [c] ->
  length c = Z.to_nat chunksize ->
  exists (h' : heap) (w' : LiveFFTWidget.t),
    LiveFFTWidget.handleNewData h w = Ok (h', w')
    /\ length (LiveFFTWidget.line_top w').1 = length (LiveFFTWidget.line_top w').2
    /\ length (LiveFFTWidget.line_bottom w').1
       = length (LiveFFTWidget.line_bottom w').2.
Proof.
  intros Hcs Htime Hfreq Hwf Hpend Hlen.
  assert (Hne : c <> []).
  { intros ->. cbn in Hlen. lia. }
  destruct (LiveFFTWidget.filtered_spectrum w c) as [fft|e] eqn:Hf;
    [|unfold LiveFFTWidget.filtered_spectrum in Hf;
      rewrite rfft_nonempty in Hf by exact Hne; discriminate].
  assert (Hfl : length fft = (length c / 2 + 1)%nat).
  { unfold LiveFFTWidget.filtered_spectrum in Hf.
    rewrite rfft_nonempty in Hf by exact Hne. cbn [bind] in Hf.
    injection Hf as <-.
    by rewrite assign_zero_upto_length, length_map, length_seq. }
  destruct (filtered_spectrum_embed _ _ _ Hf) as (zs & Hzs & Hzne).
  destruct (resolve_gain_total w zs Hwf Hzne) as (g & s' & Hres & _).
  rewrite <- Hzs in Hres.
  destruct (handleNewData_step h w earlier c fft g s' Hpend Hf Hres)
    as (h' & w' & Hrun & _ & Hline).
  exists h', w'. split; [exact Hrun|].
  destruct (handleNewData_cases h w) as (h1 & mic1 & _ & Hrun').
  rewrite Hrun, Hpend, last_snoc in Hrun'.
  unfold LiveFFTWidget.process in Hrun'. rewrite Hf in Hrun'.
  cbn [bind] in Hrun'. rewrite Hres in Hrun'. cbn [bind] in Hrun'.
  injection Hrun' as -> ->. cbn.
  rewrite Htime, Hfreq, make_time_vect_length, make_freq_vect_length.
  split; [by rewrite Hlen|].
  unfold LiveFFTWidget.scale. rewrite !length_map, Hfl, Hlen.
  apply half_plus_one. lia.
Qed.

Lemma plotted_data_fit_axes_witness :
  let st := LiveFFTWidget.init_state ∅ 8 48000 in
  let c := 1 :: repeat 0 7 in
  let h := MicrophoneRecorder.append c st.1 (LiveFFTWidget.mic st.2) in
  exists (h' : heap) (w' : LiveFFTWidget.t),
    LiveFFTWidget.handleNewData h st.2 = Ok (h', w')
    /\ length (LiveFFTWidget.line_top w').1 = length (LiveFFTWidget.line_top w').2
    /\ length (LiveFFTWidget.line_bottom w').1
       = length (LiveFFTWidget.line_bottom w').2.
Proof.
  intros st c h.
  apply (plotted_data_fit_axes h st.2 8 48000 [] c).
  - lia.
  - reflexivity.
  - reflexivity.
  - apply init_state_wf.
  - apply init_state_pending.
  - reflexivity.
Defined.

(** * Further properties of the gain *)

Section GainHelpers.

Import LiveFFTWidget.

(** The gain and the slider of an auto-gain tick on a spectrum that is
    not zero. *)
Lemma resolve_gain_positive
    (w : t) (fft_frame : list Numpy.complex) (M : R) :
  autoGainCheckBox w = true ->
  Numpy.amax (map Numpy.abs fft_frame) = Ok (Fin M) ->
  0 < M ->
  1 / M < float32_overflow ->
  resolve_gain w fft_frame
  = (s' <- DecibelSlider.set_decibel (fixedGainSlider w)
             (Fin (10 * (ln (sample_style_2 / M) / ln 10))) ;;
     Ok (Fin (sample_style_2 / M), s')).
Proof.
  intros Hauto Hmax HM Hfit.
  assert (Hg : 0 < sample_style_2 / M)
    by (unfold sample_style_2; apply Rdiv_lt_0_compat; lra).
  unfold resolve_gain. rewrite Hauto, Hmax. cbn [bind].
  by rewrite (auto_gain_positive M HM Hfit), (set_power_ratio_fin _ _ Hg).
Qed.

(** The gain and the slider of an auto-gain tick on a spectrum whose
    largest magnitude is too small for its reciprocal. *)
Lemma resolve_gain_overflow
    (w : t) (fft_frame : list Numpy.complex) (M : R) :
  autoGainCheckBox w = true ->
  DecibelSlider.wf (fixedGainSlider w) ->
  Numpy.amax (map Numpy.abs fft_frame) = Ok (Fin M) ->
  0 < M ->
  float32_overflow <= 1 / M ->
  exists s' : DecibelSlider.t,
    resolve_gain w fft_frame = Ok (PInf, s')
    /\ DecibelSlider.value s' = DecibelSlider.INT_MAX.
Proof.
  intros Hauto Hwf Hmax HM Hover.
  destruct (set_power_ratio_inf _ Hwf) as (s' & Hset & Hval & _).
  exists s'. split; [|exact Hval].
  unfold resolve_gain. rewrite Hauto, Hmax. cbn [bind].
  by rewrite (auto_gain_overflow M HM Hover), Hset.
Qed.

Lemma scale_embed_magnitudes (g : R) (zs : list (R * R)) :
  0 <= g ->
  map Numpy.abs (scale (Fin g) (map Numpy.embed zs))
  = map (fun z => Fin (g * Numpy.modulus z)) zs.
Proof. intros Hg. rewrite (scale_embed g zs Hg). by rewrite !map_map. Qed.

Lemma fold_Rmax_bounds (ms : list R) (m : R) :
  Forall (fun x => 0 <= x) (m :: ms) ->
  Forall (fun x => 0 <= x <= fold_left Rmax ms m) (m :: ms).
Proof.
  intros Hpos. destruct (fold_Rmax_ge ms m) as [Hm Hms].
  inversion Hpos as [|? ? Hm0 Hms0]; subst.
  constructor; [lra|].
  clear Hm Hpos. induction ms as [|x ms IH]; [constructor|].
  inversion Hms as [|? ? Hx Hrest]; inversion Hms0 as [|? ? Hx0 Hrest0]; subst.
  constructor; [lra|]. clear IH.
  rewrite Forall_forall in Hrest, Hrest0 |- *. intros y Hy.
  split; [by apply Hrest0|by apply Hrest].
Qed.

End GainHelpers.

(** X18. With auto-gain off and a non-empty newest chunk the tick
    returns, and every displayed magnitude is the magnitude of its
    filtered bin times the slider's power ratio, a positive finite
    factor. *)
Theorem manual_gain_scales_magnitudes
    (h : heap) (w : LiveFFTWidget.t) (earlier : list chunk) (c : chunk) :
  LiveFFTWidget.autoGainCheckBox w = false ->
  LiveFFTWidget.pending h w = earlier ++ [c] ->
  c <> [] ->
  exists (h' : heap) (w' : LiveFFTWidget.t) (zs : list (R * R)),
    LiveFFTWidget.handleNewData h w = Ok (h', w')
    /\ LiveFFTWidget.filtered_spectrum w c = Ok (map Numpy.embed zs)
    /\ (LiveFFTWidget.line_bottom w').2
       = map (fun z =>
                Fin (DecibelSlider.power_ratio (LiveFFTWidget.fixedGainSlider w)
                     * Numpy.modulus z)) zs
    /\ 0 < DecibelSlider.power_ratio (LiveFFTWidget.fixedGainSlider w).
Proof.
  intros Hoff Hpend Hne.
  destruct (LiveFFTWidget.filtered_spectrum w c) as [fft|e] eqn:Hf;
    [|unfold LiveFFTWidget.filtered_spectrum in Hf;
      rewrite rfft_nonempty in Hf by exact Hne; discriminate].
  destruct (filtered_spectrum_embed _ _ _ Hf) as (zs & -> & _).
  assert (Hpos : 0 < DecibelSlider.power_ratio (LiveFFTWidget.fixedGainSlider w))
    by apply Rpower_10_pos.
  assert (Hres : LiveFFTWidget.resolve_gain w (map Numpy.embed zs)
                 = Ok (Fin (DecibelSlider.power_ratio
                              (LiveFFTWidget.fixedGainSlider w)),
                       LiveFFTWidget.fixedGainSlider w))
    by (unfold LiveFFTWidget.resolve_gain; by rewrite Hoff).
  destruct (handleNewData_step h w earlier c _ _ _ Hpend Hf Hres)
    as (h' & w' & Hrun & _ & Hline).
  exists h', w', zs. split; [exact Hrun|]. split; [reflexivity|].
  split; [|exact Hpos].
  rewrite Hline. apply scale_embed_magnitudes. lra.
Qed.

Lemma manual_gain_scales_magnitudes_witness :
  let st := LiveFFTWidget.init_state ∅ 8 48000 in
  let w := LiveFFTWidget.setChecked false st.2 in
  let c := 1 :: repeat 0 7 in
  let h := MicrophoneRecorder.append c st.1 (LiveFFTWidget.mic w) in
  exists (h' : heap) (w' : LiveFFTWidget.t) (zs : list (R * R)),
    LiveFFTWidget.handleNewData h w = Ok (h', w')
    /\ LiveFFTWidget.filtered_spectrum w c = Ok (map Numpy.embed zs)
    /\ (LiveFFTWidget.line_bottom w').2
       = map (fun z =>
                Fin (DecibelSlider.power_ratio (LiveFFTWidget.fixedGainSlider w)
                     * Numpy.modulus z)) zs
    /\ 0 < DecibelSlider.power_ratio (LiveFFTWidget.fixedGainSlider w).
Proof.
  intros st w c h.
  apply (manual_gain_scales_magnitudes h w [] c).
  - reflexivity.
  - apply (init_state_pending ∅ 8 48000 c).
  - discriminate.
Defined.

(** X19. On an auto-gain tick over a spectrum whose largest magnitude
    is positive and not so small that its reciprocal overflows, every
    displayed magnitude is a finite number inside the y range of the
    bottom plot, [0] to [sample_style[2]]. *)
Theorem auto_gain_fits_plot
    (h : heap) (w : LiveFFTWidget.t) (earlier : list chunk) (c : chunk)
    (fft_frame : list Numpy.complex) (M : R) :
  LiveFFTWidget.autoGainCheckBox w = true ->
  DecibelSlider.wf (LiveFFTWidget.fixedGainSlider w) ->
  LiveFFTWidget.pending h w = earlier ++ [c] ->
  LiveFFTWidget.filtered_spectrum w c = Ok fft_frame ->
  Numpy.amax (map Numpy.abs fft_frame) = Ok (Fin M) ->
  0 < M ->
  1 / M < float32_overflow ->
  exists (h' : heap) (w' : LiveFFTWidget.t),
    LiveFFTWidget.handleNewData h w = Ok (h', w')
    /\ Forall (fun v => exists x : R,
                 v = Fin x
                 /\ LiveFFTWidget.bottom_ylim.1 <= x <= LiveFFTWidget.bottom_ylim.2)
         (LiveFFTWidget.line_bottom w').2.
Proof.
  intros Hauto Hwf Hpend Hf Hmax HM Hfit.
  assert (Hg : 0 < sample_style_2 / M)
    by (unfold sample_style_2; apply Rdiv_lt_0_compat; lra).
  pose proof (resolve_gain_positive w fft_frame M Hauto Hmax HM Hfit) as Hres.
  destruct (set_decibel_fin _ Hwf (10 * (ln (sample_style_2 / M) / ln 10)))
    as (s' & Hset & _).
  rewrite Hset in Hres. cbn [bind] in Hres.
  destruct (handleNewData_step h w earlier c _ _ _ Hpend Hf Hres)
    as (h' & w' & Hrun & _ & Hline).
  exists h', w'. split; [exact Hrun|]. rewrite Hline.
  destruct (filtered_spectrum_embed _ _ _ Hf) as (zs & -> & Hzs).
  rewrite scale_embed_magnitudes by lra.
  destruct zs as [|z zs]; [done|].
  rewrite amax_embed in Hmax. injection Hmax as Hmax.
  assert (Hb : Forall (fun x => 0 <= x <= M) (map Numpy.modulus (z :: zs))).
  { rewrite <- Hmax. apply (fold_Rmax_bounds (map Numpy.modulus zs)).
    apply List.Forall_forall. intros x Hx.
    change (Numpy.modulus z :: map Numpy.modulus zs)
      with (map Numpy.modulus (z :: zs)) in Hx.
    apply in_map_iff in Hx as (y & <- & _). apply modulus_nonneg. }
  rewrite List.Forall_map in Hb |- *.
  eapply Forall_impl; [exact Hb|]. intros y [Hy0 HyM]. cbv beta.
  eexists. split; [reflexivity|]. cbn [LiveFFTWidget.bottom_ylim fst snd].
  unfold sample_style_2 in *.
  generalize dependent (Numpy.modulus y). intros m Hm0 HmM. split.
  - apply Rmult_le_pos; lra.
  - apply (Rmult_le_reg_r M); [exact HM|].
    replace (1 / M * m * M) with m by (field; lra). lra.
Qed.

Lemma auto_gain_fits_plot_witness :
  let st := LiveFFTWidget.init_state ∅ 8 48000 in
  let c := 1 :: repeat 0 7 in
  let h := MicrophoneRecorder.append c st.1 (LiveFFTWidget.mic st.2) in
  exists (h' : heap) (w' : LiveFFTWidget.t),
    LiveFFTWidget.handleNewData h st.2 = Ok (h', w')
    /\ Forall (fun v => exists x : R,
                 v = Fin x
                 /\ LiveFFTWidget.bottom_ylim.1 <= x <= LiveFFTWidget.bottom_ylim.2)
         (LiveFFTWidget.line_bottom w').2.
Proof.
  intros st c h.
  destruct impulse_state as (Hauto & Hwf & Hpend & Hfilt & Hmax).
  exact (auto_gain_fits_plot h st.2 [] c _ 1 Hauto Hwf Hpend Hfilt Hmax
           Rlt_0_1 one_fits).
Defined.

(** X20. After an auto-gain tick over a spectrum whose largest
    magnitude [M] is positive, the slider follows the gain: when [1/M]
    does not overflow, the decibel value the gain label shows is within
    half a slider position of the gain in decibels if that lies inside
    the slider's range, and the slider sits at the lower end if it lies
    below; the slider sits at the upper end if the gain in decibels
    lies above the range or [1/M] overflows. *)
Theorem auto_gain_readout
    (h : heap) (w : LiveFFTWidget.t) (earlier : list chunk) (c : chunk)
    (fft_frame : list Numpy.complex) (M : R) :
  LiveFFTWidget.autoGainCheckBox w = true ->
  DecibelSlider.wf (LiveFFTWidget.fixedGainSlider w) ->
  LiveFFTWidget.pending h w = earlier ++ [c] ->
  LiveFFTWidget.filtered_spectrum w c = Ok fft_frame ->
  Numpy.amax (map Numpy.abs fft_frame) = Ok (Fin M) ->
  0 < M ->
  let s := LiveFFTWidget.fixedGainSlider w in
  let d := 10 * (ln (sample_style_2 / M) / ln 10) in
  exists (h' : heap) (w' : LiveFFTWidget.t),
    LiveFFTWidget.handleNewData h w = Ok (h', w')
    /\ (1 / M < float32_overflow ->
        IZR (DecibelSlider.low_db s) <= d <= IZR (DecibelSlider.high_db s) ->
        Rabs (LiveFFTWidget.fixedGainSliderChanged w' - d)
        <= IZR (DecibelSlider.high_db s - DecibelSlider.low_db s)
           / IZR DecibelSlider.INT_MAX / 2)
    /\ (1 / M < float32_overflow ->
        d <= IZR (DecibelSlider.low_db s) ->
        DecibelSlider.value (LiveFFTWidget.fixedGainSlider w')
        = DecibelSlider.INT_MIN)
    /\ (IZR (DecibelSlider.high_db s) <= d ->
        DecibelSlider.value (LiveFFTWidget.fixedGainSlider w')
        = DecibelSlider.INT_MAX)
    /\ (float32_overflow <= 1 / M ->
        DecibelSlider.value (LiveFFTWidget.fixedGainSlider w')
        = DecibelSlider.INT_MAX).
Proof.
  intros Hauto Hwf Hpend Hf Hmax HM s d.
  destruct (Rlt_dec (1 / M) float32_overflow) as [Hfit|Hover].
  - pose proof (resolve_gain_positive w fft_frame M Hauto Hmax HM Hfit) as Hres.
    fold s d in Hres.
    destruct (set_decibel_fin s Hwf d) as (s' & Hset & Hval & _).
    rewrite Hset in Hres. cbn [bind] in Hres.
    destruct (handleNewData_step h w earlier c _ _ _ Hpend Hf Hres)
      as (h' & w' & Hrun & Hs & _).
    exists h', w'. split; [exact Hrun|].
    unfold LiveFFTWidget.fixedGainSliderChanged. rewrite Hs.
    split; [|split; [|split]].
    + intros _ Hd.
      destruct (decibel_after_set_decibel s Hwf d Hd)
        as (s'' & Hset' & _ & _ & Hnear).
      rewrite Hset in Hset'. injection Hset' as <-.
      apply Rabs_le. lra.
    + intros _ Hd. rewrite Hval. by apply stored_below.
    + intros Hd. rewrite Hval. by apply stored_above.
    + intros Hd. lra.
  - assert (Hover' : float32_overflow <= 1 / M) by lra.
    destruct (resolve_gain_overflow w fft_frame M Hauto Hwf Hmax HM Hover')
      as (s' & Hres & Hval).
    destruct (handleNewData_step h w earlier c _ _ _ Hpend Hf Hres)
      as (h' & w' & Hrun & Hs & _).
    exists h', w'. split; [exact Hrun|]. rewrite Hs.
    split; [|split; [|split]]; try (intros; exact Hval); intros; lra.
Qed.

Lemma auto_gain_readout_witness :
  let st := LiveFFTWidget.init_state ∅ 8 48000 in
  let c := 1 :: repeat 0 7 in
  let h := MicrophoneRecorder.append c st.1 (LiveFFTWidget.mic st.2) in
  let s := LiveFFTWidget.fixedGainSlider st.2 in
  let d := 10 * (ln (sample_style_2 / 1) / ln 10) in
  exists (h' : heap) (w' : LiveFFTWidget.t),
    LiveFFTWidget.handleNewData h st.2 = Ok (h', w')
    /\ (1 / 1 < float32_overflow ->
        IZR (DecibelSlider.low_db s) <= d <= IZR (DecibelSlider.high_db s) ->
        Rabs (LiveFFTWidget.fixedGainSliderChanged w' - d)
        <= IZR (DecibelSlider.high_db s - DecibelSlider.low_db s)
           / IZR DecibelSlider.INT_MAX / 2)
    /\ (1 / 1 < float32_overflow ->
        d <= IZR (DecibelSlider.low_db s) ->
        DecibelSlider.value (LiveFFTWidget.fixedGainSlider w')
        = DecibelSlider.INT_MIN)
    /\ (IZR (DecibelSlider.high_db s) <= d ->
        DecibelSlider.value (LiveFFTWidget.fixedGainSlider w')
        = DecibelSlider.INT_MAX)
    /\ (float32_overflow <= 1 / 1 ->
        DecibelSlider.value (LiveFFTWidget.fixedGainSlider w')
        = DecibelSlider.INT_MAX).
Proof.
  intros st c h.
  destruct impulse_state as (Hauto & Hwf & Hpend & Hfilt & Hmax).
  exact (auto_gain_readout h st.2 [] c _ 1 Hauto Hwf Hpend Hfilt Hmax Rlt_0_1).
Defined.

Section Impulse.

Import Numpy.

Lemma assign_zero_upto_repeat (k m : nat) (b : complex) :
  assign_zero_upto k (repeat b (k + m)) = repeat czero k ++ repeat b m.
Proof.
  induction k as [|k IH]; [by destruct m|].
  cbn [Nat.add repeat assign_zero_upto app]. by rewrite IH.
Qed.

Lemma fold_Rmax_le (ms : list R) (m B : R) :
  m <= B -> Forall (fun x => x <= B) ms -> fold_left Rmax ms m <= B.
Proof.
  intros Hm Hms. revert m Hm. induction Hms as [|x ms Hx _ IH]; intros m Hm.
  - exact Hm.
  - cbn [fold_left]. apply IH. by apply Rmax_lub.
Qed.

Lemma modulus_zero : modulus (0, 0) = 0.
Proof.
  unfold modulus; cbn [fst snd].
  replace (0 * 0 + 0 * 0) with 0 by ring. apply sqrt_0.
Qed.

Lemma modulus_one : modulus (1, 0) = 1.
Proof.
  unfold modulus; cbn [fst snd].
  replace (1 * 1 + 0 * 0) with 1 by ring. apply sqrt_1.
Qed.

(** The filtered spectrum of a unit impulse: zeros below the cutoff,
    ones from there on. *)
Lemma impulse_filtered (w : LiveFFTWidget.t) (n m : nat) :
  (S n / 2 + 1 = LiveFFTWidget.cutoffSlider w + m)%nat ->
  LiveFFTWidget.filtered_spectrum w (1 :: repeat 0 n)
  = Ok (map embed (repeat (0, 0) (LiveFFTWidget.cutoffSlider w)
                   ++ repeat (1, 0) m)).
Proof.
  intros Hbins. unfold LiveFFTWidget.filtered_spectrum.
  rewrite rfft_nonempty by done. cbn [bind].
  assert (Hz : Forall (fun v => v = 0) (repeat 0 n))
    by (apply Forall_forall; intros x Hx;
        by apply list_elem_of_In, repeat_spec in Hx).
  rewrite (map_ext _ (fun _ => (Fin 1, Fin 0)))
    by (intros k; destruct (dft_impulse _ k Hz) as [-> ->]; done).
  rewrite map_const, length_seq.
  cbn [length]. rewrite repeat_length, Hbins, assign_zero_upto_repeat.
  by rewrite map_app, !map_repeat.
Qed.

Lemma impulse_amax (k m : nat) :
  amax (map abs (map embed (repeat (0, 0) k ++ repeat (1, 0) (S m))))
  = Ok (Fin 1).
Proof.
  set (zs := repeat (0, 0) k ++ repeat (1, 0) (S m)).
  assert (Hall : Forall (fun x => 0 <= x <= 1) (map modulus zs)).
  { apply List.Forall_forall. intros x Hx.
    apply in_map_iff in Hx as (z & <- & Hz).
    apply in_app_or in Hz as [Hz|Hz]; apply repeat_spec in Hz; subst z.
    - rewrite modulus_zero. lra.
    - rewrite modulus_one. lra. }
  assert (Hin : In 1 (map modulus zs)).
  { apply in_map_iff. exists (1, 0). split; [apply modulus_one|].
    apply in_or_app. right. by left. }
  destruct zs as [|z zs]; [done|].
  rewrite amax_embed. f_equal. f_equal.
  cbn [map] in Hall, Hin. inversion Hall as [|? ? Hz Hzs]; subst.
  apply Rle_antisym.
  - apply fold_Rmax_le; [lra|].
    eapply Forall_impl; [exact Hzs|]. cbv beta. intros; lra.
  - destruct (fold_Rmax_ge (map modulus zs) (modulus z)) as [H1 H2].
    destruct Hin as [<-|Hin]; [exact H1|].
    rewrite List.Forall_forall in H2. by apply H2.
Qed.

End Impulse.

(** X21. A unit impulse of any length, with a cutoff that leaves at
    least one bin and auto-gain on: the tick shows zeros below the
    cutoff and [1] in every bin from the cutoff on, and it sets the
    slider to 0 dB. *)
Theorem unit_impulse_tick
    (h : heap) (w : LiveFFTWidget.t) (earlier : list chunk) (n m : nat) :
  LiveFFTWidget.autoGainCheckBox w = true ->
  DecibelSlider.wf (LiveFFTWidget.fixedGainSlider w) ->
  LiveFFTWidget.pending h w = earlier ++ [1 :: repeat 0 n] ->
  (S n / 2 + 1 = LiveFFTWidget.cutoffSlider w + S m)%nat ->
  exists (h' : heap) (w' : LiveFFTWidget.t),
    LiveFFTWidget.handleNewData h w = Ok (h', w')
    /\ (LiveFFTWidget.line_bottom w').2
       = repeat (Fin 0) (LiveFFTWidget.cutoffSlider w) ++ repeat (Fin 1) (S m)
    /\ DecibelSlider.set_decibel (LiveFFTWidget.fixedGainSlider w) (Fin 0)
       = Ok (LiveFFTWidget.fixedGainSlider w').
Proof.
  intros Hauto Hwf Hpend Hbins.
  pose proof (impulse_filtered w n (S m) Hbins) as Hf.
  pose proof (impulse_amax (LiveFFTWidget.cutoffSlider w) m) as Hmax.
  pose proof (resolve_gain_positive w _ 1 Hauto Hmax Rlt_0_1 one_fits) as Hres.
  assert (Hd : 10 * (ln (sample_style_2 / 1) / ln 10) = 0).
  { unfold sample_style_2. replace (1 / 1) with 1 by field.
    rewrite ln_1. unfold Rdiv. ring. }
  rewrite Hd in Hres.
  destruct (set_decibel_fin _ Hwf 0) as (s' & Hset & _).
  rewrite Hset in Hres. cbn [bind] in Hres.
  destruct (handleNewData_step h w earlier _ _ _ _ Hpend Hf Hres)
    as (h' & w' & Hrun & Hs & Hline).
  exists h', w'. split; [exact Hrun|]. split; [|by rewrite Hs].
  rewrite Hline, scale_embed_magnitudes
    by (unfold sample_style_2; lra).
  rewrite map_app, !map_repeat. cbv beta.
  rewrite modulus_zero, modulus_one. unfold sample_style_2.
  f_equal; f_equal; f_equal; field.
Qed.

Lemma unit_impulse_tick_witness :
  let st := LiveFFTWidget.init_state ∅ 8 48000 in
  let h := MicrophoneRecorder.append (1 :: repeat 0 7) st.1
             (LiveFFTWidget.mic st.2) in
  exists (h' : heap) (w' : LiveFFTWidget.t),
    LiveFFTWidget.handleNewData h st.2 = Ok (h', w')
    /\ (LiveFFTWidget.line_bottom w').2
       = repeat (Fin 0) (LiveFFTWidget.cutoffSlider st.2) ++ repeat (Fin 1) 4
    /\ DecibelSlider.set_decibel (LiveFFTWidget.fixedGainSlider st.2) (Fin 0)
       = Ok (LiveFFTWidget.fixedGainSlider w').
Proof.
  intros st h.
  apply (unit_impulse_tick h st.2 [] 7 3).
  - reflexivity.
  - apply init_state_wf.
  - apply (init_state_pending ∅ 8 48000).
  - reflexivity.
Defined.

Section Loudness.

Import Numpy.

Variable a : R.
Hypothesis Ha : 0 < a.

Lemma Rsum_weighted_scale (f : nat -> R) (l : list nat) (x : list R) :
  Rsum (map (fun p => p.2 * f p.1) (combine l (map (Rmult a) x)))
  = a * Rsum (map (fun p => p.2 * f p.1) (combine l x)).
Proof.
  revert l. induction x as [|v x IH]; intros [|n l];
    cbn [map combine Rsum fold_right fst snd]; try ring.
  change (fold_right Rplus 0 ?u) with (Rsum u). rewrite IH. ring.
Qed.

Lemma dft_scale (x : list R) (k : nat) :
  dft_re (map (Rmult a) x) k = a * dft_re x k
  /\ dft_im (map (Rmult a) x) k = a * dft_im x k.
Proof.
  unfold dft_re, dft_im. rewrite length_map.
  rewrite (Rsum_weighted_scale (fun n => cos (dft_angle (length x) k n))).
  rewrite (Rsum_weighted_scale (fun n => sin (dft_angle (length x) k n))).
  split; ring.
Qed.

Lemma modulus_louder (z : R * R) : modulus (louder a z) = a * modulus z.
Proof.
  destruct z as [p q]. unfold modulus, louder; cbn [fst snd].
  replace (a * p * (a * p) + a * q * (a * q)) with ((a * a) * (p * p + q * q))
    by ring.
  rewrite sqrt_mult by nra. rewrite sqrt_square by lra. reflexivity.
Qed.

Lemma assign_zero_upto_louder (k : nat) (zs : list (R * R)) :
  exists zs' : list (R * R),
    assign_zero_upto k (map embed zs) = map embed zs'
    /\ assign_zero_upto k (map embed (map (louder a) zs)) = map embed (map (louder a) zs').
Proof.
  revert zs. induction k as [|k IH]; intros zs.
  - by exists zs.
  - destruct zs as [|z zs]; [by exists []|].
    destruct (IH zs) as (zs' & H1 & H2).
    exists ((0, 0) :: zs'). cbn [map assign_zero_upto]. rewrite H1, H2.
    split; [reflexivity|]. f_equal.
    unfold czero, embed, louder; cbn [fst snd]. by rewrite Rmult_0_r.
Qed.

(** The filtered spectra of a chunk and of the louder chunk. *)
Lemma filtered_spectrum_louder (w : LiveFFTWidget.t) (x : chunk) :
  x <> [] ->
  exists zs : list (R * R),
    LiveFFTWidget.filtered_spectrum w x = Ok (map embed zs)
    /\ LiveFFTWidget.filtered_spectrum w (map (Rmult a) x)
       = Ok (map embed (map (louder a) zs)).
Proof.
  intros Hx. unfold LiveFFTWidget.filtered_spectrum.
  rewrite (rfft_nonempty x Hx).
  rewrite rfft_nonempty by (destruct x; [done|discriminate]).
  cbn [bind]. rewrite length_map.
  set (bins := map (fun k => (dft_re x k, dft_im x k))
                   (seq 0 (length x / 2 + 1))).
  destruct (assign_zero_upto_louder (LiveFFTWidget.cutoffSlider w) bins)
    as (zs' & H1 & H2).
  exists zs'. split.
  - rewrite <- H1. unfold bins. by rewrite map_map.
  - rewrite <- H2. unfold bins. rewrite !map_map. f_equal. f_equal.
    apply map_ext. intros k. destruct (dft_scale x k) as [-> ->]. done.
Qed.

Lemma amax_louder (zs : list (R * R)) (M : R) :
  amax (map abs (map embed zs)) = Ok (Fin M) ->
  amax (map abs (map embed (map (louder a) zs))) = Ok (Fin (a * M)).
Proof.
  destruct zs as [|z zs]; [done|].
  change (map (louder a) (z :: zs)) with (louder a z :: map (louder a) zs).
  rewrite !amax_embed. intros [= <-]. f_equal. f_equal.
  rewrite map_map, modulus_louder.
  rewrite (map_ext _ (fun z0 => a * modulus z0)) by apply modulus_louder.
  rewrite <- (map_map modulus (Rmult a)).
  apply fold_Rmax_scale. lra.
Qed.

Lemma magnitudes_louder (zs : list (R * R)) (M : R) :
  0 < M ->
  map (fun z => Fin (sample_style_2 / (a * M) * modulus z)) (map (louder a) zs)
  = map (fun z => Fin (sample_style_2 / M * modulus z)) zs.
Proof.
  intros HM. rewrite map_map. apply map_ext. intros z.
  rewrite modulus_louder. f_equal. unfold sample_style_2. field. lra.
Qed.

End Loudness.

(** X22. Auto-gain takes the loudness out: for a chunk whose filtered
    spectrum is not zero, the same chunk with every sample multiplied
    by a positive factor gives exactly the same displayed magnitudes,
    as long as the reciprocal of neither maximum overflows. *)
Theorem auto_gain_ignores_loudness
    (h h2 : heap) (w : LiveFFTWidget.t) (earlier earlier2 : list chunk)
    (c : chunk) (a M : R) (fft_frame : list Numpy.complex) :
  0 < a ->
  LiveFFTWidget.autoGainCheckBox w = true ->
  DecibelSlider.wf (LiveFFTWidget.fixedGainSlider w) ->
  LiveFFTWidget.pending h w = earlier ++ [c] ->
  LiveFFTWidget.pending h2 w = earlier2 ++ [map (Rmult a) c] ->
  LiveFFTWidget.filtered_spectrum w c = Ok fft_frame ->
  Numpy.amax (map Numpy.abs fft_frame) = Ok (Fin M) ->
  0 < M ->
  1 / M < float32_overflow ->
  1 / (a * M) < float32_overflow ->
  exists (h' h2' : heap) (w' w2' : LiveFFTWidget.t),
    LiveFFTWidget.handleNewData h w = Ok (h', w')
    /\ LiveFFTWidget.handleNewData h2 w = Ok (h2', w2')
    /\ (LiveFFTWidget.line_bottom w2').2 = (LiveFFTWidget.line_bottom w').2.
Proof.
  intros Ha Hauto Hwf Hpend Hpend2 Hf Hmax HM Hfit Hfit2.
  assert (Hne : c <> []).
  { intros ->. discriminate Hf. }
  destruct (filtered_spectrum_louder a w c Hne) as (zs & Hf1 & Hf2).
  rewrite Hf in Hf1. injection Hf1 as ->.
  pose proof (amax_louder a Ha zs M Hmax) as Hmax2.
  assert (HaM : 0 < a * M) by nra.
  pose proof (resolve_gain_positive w _ M Hauto Hmax HM Hfit) as Hres.
  pose proof (resolve_gain_positive w _ (a * M) Hauto Hmax2 HaM Hfit2) as Hres2.
  destruct (set_decibel_fin _ Hwf (10 * (ln (sample_style_2 / M) / ln 10)))
    as (s1 & Hset1 & _).
  destruct (set_decibel_fin _ Hwf (10 * (ln (sample_style_2 / (a * M)) / ln 10)))
    as (s2 & Hset2 & _).
  rewrite Hset1 in Hres. rewrite Hset2 in Hres2. cbn [bind] in Hres, Hres2.
  destruct (handleNewData_step h w earlier c _ _ _ Hpend Hf Hres)
    as (h' & w' & Hrun & _ & Hline).
  destruct (handleNewData_step h2 w earlier2 _ _ _ _ Hpend2 Hf2 Hres2)
    as (h2' & w2' & Hrun2 & _ & Hline2).
  exists h', h2', w', w2'. split; [exact Hrun|]. split; [exact Hrun2|].
  rewrite Hline, Hline2.
  rewrite !scale_embed_magnitudes
    by (unfold sample_style_2; left; apply Rdiv_lt_0_compat; lra).
  by apply magnitudes_louder.
Qed.

Lemma auto_gain_ignores_loudness_witness :
  let st := LiveFFTWidget.init_state ∅ 8 48000 in
  let c := 1 :: repeat 0 7 in
  let h := MicrophoneRecorder.append c st.1 (LiveFFTWidget.mic st.2) in
  let h2 := MicrophoneRecorder.append (map (Rmult 3) c) st.1
              (LiveFFTWidget.mic st.2) in
  exists (h' h2' : heap) (w' w2' : LiveFFTWidget.t),
    LiveFFTWidget.handleNewData h st.2 = Ok (h', w')
    /\ LiveFFTWidget.handleNewData h2 st.2 = Ok (h2', w2')
    /\ (LiveFFTWidget.line_bottom w2').2 = (LiveFFTWidget.line_bottom w').2.
Proof.
  intros st c h h2.
  destruct impulse_state as (Hauto & Hwf & Hpend & Hfilt & Hmax).
  refine (auto_gain_ignores_loudness h h2 st.2 [] [] c 3 1 _ _
            Hauto Hwf Hpend _ Hfilt Hmax Rlt_0_1 one_fits _).
  - lra.
  - apply (init_state_pending ∅ 8 48000).
  - pose proof float32_overflow_pos. lra.
Defined.

(** * Automatic gain on a spectrum that is not zero *)

Section TinyImpulse.

Import Numpy.







End TinyImpulse.



